(** * TimeSeriesChannel: the channel tag of the time-series view

    A shallow embedding of [src/tags/object/TimeSeries/Channel.js]: the
    channel model (tag attributes, snapshot preprocessing, the actions
    [handleTrackerChanged] and [updateValue]) and the part of the view
    function that resolves the value under the tracker.

    Conventions of the embedding.
    - JavaScript numbers are exact rationals ([Q]); [NaN], [undefined] and
      [null] are separate constructors.  Sums, quotients and products are
      the exact ones and number-to-string conversions follow the exact
      decimal expansion of the rational.  A double rounds each of them:
      the theorems that give the value of an average are stated for
      integer samples small enough that no rounding changes the result.
    - A raw value (what [runTemplate] yields in raw mode) is either missing
      or an array of columns; a column is either missing or an array of
      scalars.
    - A JavaScript exception is an explicit outcome ([Throw]); an action that
      throws keeps the assignments it made before the throw.
    - The pondjs classes the component binds to ([TimeSeries], [TimeRange])
      are embedded in [Module Pond], one definition per library method the
      component calls.  A series has the single data column the component
      gives it; the column is read back by name, and pondjs splits a name
      at its dots into a path. *)

From Stdlib Require Import ZArith QArith Qround Qabs Lia Ascii String List.
From stdpp Require Import base option list strings gmap.
From Equations Require Import Equations.

Local Open Scope Z_scope.

(** ** JavaScript values *)

Inductive scalar : Type :=
| Undefined
| Null
| NaN
| Num (q : Q).

(** [v[0]] of a raw value: a column, or nothing to index into. *)
Inductive column : Type :=
| NoColumn
| Column (xs : list scalar).

Inductive raw : Type :=
| NoValue
| Value (cols : list column).

Inductive exn : Type :=
| TypeError
| Error (msg : string).

Inductive result (A : Type) : Type :=
| Ok (a : A)
| Throw (e : exn).
Arguments Ok {A} a.
Arguments Throw {A} e.

Definition rbind {A B} (r : result A) (k : A -> result B) : result B :=
  match r with
  | Ok a => k a
  | Throw e => Throw e
  end.

Definition threw {A} (r : result A) : Prop :=
  match r with Ok _ => False | Throw _ => True end.

(** [!v] *)
Definition falsy (v : scalar) : bool :=
  match v with
  | Undefined | Null | NaN => true
  | Num q => Qeq_bool q 0
  end.

Definition truthy (v : scalar) : bool := negb (falsy v).

(** [ToNumber]: [None] is NaN. *)
Definition toNumber (v : scalar) : option Q :=
  match v with
  | Undefined => None
  | Null => Some 0%Q
  | NaN => None
  | Num q => Some q
  end.

(** [i <= v] for an array index [i]. *)
Definition index_le (i : nat) (v : scalar) : bool :=
  match toNumber v with
  | Some q => Qle_bool (inject_Z (Z.of_nat i)) q
  | None => false
  end.

(** [v[0]] and [c[i]]: indexing [undefined] or [null] is a TypeError, an index
    past the end of an array reads [undefined]. *)
Definition raw_first (v : raw) : result column :=
  match v with
  | NoValue => Throw TypeError
  | Value cols => Ok (default NoColumn (cols !! 0%nat))
  end.

Definition column_at (c : column) (i : nat) : result scalar :=
  match c with
  | NoColumn => Throw TypeError
  | Column xs => Ok (default Undefined (xs !! i))
  end.

(** ** [parseInt(x, 10)] on a number

    The argument is first converted to a string.  A number prints in plain
    decimal notation when it is zero or [1e-6 <= |x| < 1e21]; [parseInt] then
    reads the digits before the decimal point, which truncates toward zero.
    Any other number prints as [d.ddde+N] and [parseInt] reads the single
    leading digit.  [undefined], [null] and [NaN] print as words and parse to
    [NaN]. *)

Definition Qtrunc (q : Q) : Z :=
  if Qle_bool 0 q then Qfloor q else Qceiling q.

Definition plain_decimal (q : Q) : bool :=
  Qeq_bool q 0
  || (Qle_bool (1 # 1000000) (Qabs q)
      && negb (Qle_bool (inject_Z (10 ^ 21)) (Qabs q))).

Fixpoint lead_up (fuel : nat) (a b : Z) : Z :=
  match fuel with
  | O => a / b
  | S f => if b <=? a then a / b else lead_up f (10 * a) b
  end.

Fixpoint lead_down (fuel : nat) (n : Z) : Z :=
  match fuel with
  | O => n
  | S f => if n <? 10 then n else lead_down f (n / 10)
  end.

(** Leading significant decimal digit of [|q|], [q] not zero. *)
Definition leading_digit (q : Q) : Z :=
  let a := Z.abs (Qnum q) in
  let b := Z.pos (Qden q) in
  if a <? b then lead_up (Pos.size_nat (Qden q)) a b
  else lead_down (Z.to_nat (Z.log2 a)) (a / b).

Definition parseInt10 (v : scalar) : scalar :=
  match v with
  | Num q =>
      if plain_decimal q then Num (inject_Z (Qtrunc q))
      else Num (inject_Z (Z.sgn (Qnum q) * leading_digit q))
  | _ => NaN
  end.


(** Array indices as the component computes them: [Math.floor] of a quotient,
    so an integer, an infinity or NaN. *)
Inductive jsint : Type :=
| Int (z : Z)
| PInf
| NInf
| NaNi.

(** ** The pondjs classes used by the component *)

Module Pond.

(** A [Date] is its time value in milliseconds; [None] is an invalid date
    (time value NaN). *)
Definition Date : Type := option Z.

(** [new Date(x)] for a number: the time value is clipped to the range of
    dates and truncated to an integer. *)
Definition newDate (q : Q) : Date :=
  if Qle_bool (Qabs q) (inject_Z 8640000000000000) then Some (Qtrunc q)
  else None.

(** Comparisons of time values; any comparison with NaN is false. *)
Definition date_lt (a b : Date) : bool :=
  match a, b with
  | Some x, Some y => x <? y
  | _, _ => false
  end.

Definition date_eq (a b : Date) : bool :=
  match a, b with
  | Some x, Some y => x =? y
  | _, _ => false
  end.

Record TimeRange : Type := mkTimeRange { begin : Date; end_ : Date }.

Record TimeEvent : Type := mkTimeEvent { timestamp : Date; data : scalar }.

Record TimeSeries : Type := mkTimeSeries { events : list TimeEvent }.

(** [timestampFromArg]: a number becomes a date, anything that is not a
    number, string or date is refused. *)
Definition timestampFromArg (t : scalar) : result Date :=
  match t with
  | Num q => Ok (newDate q)
  | NaN => Ok None
  | Undefined | Null => Throw (Error "Unable to get timestamp")
  end.

Fixpoint events_of_points (points : list (scalar * scalar))
  : result (list TimeEvent) :=
  match points with
  | [] => Ok []
  | (t, v) :: rest =>
      rbind (timestampFromArg t) (fun d =>
      rbind (events_of_points rest) (fun es =>
      Ok (mkTimeEvent d v :: es)))
  end.

(** [Collection.isChronological].  The running variable [t] starts undefined,
    takes the first event's time value (a number) and from then on the
    previous event's timestamp (a Date object); the comparison is skipped
    while [!t] holds, that is while [t] is undefined, 0 or NaN. *)
Inductive seen : Type :=
| Unseen
| SeenTime (t : Date)
| SeenDate (d : Date).

Definition seen_falsy (s : seen) : bool :=
  match s with
  | Unseen => true
  | SeenTime None => true
  | SeenTime (Some z) => z =? 0
  | SeenDate _ => false
  end.

Definition seen_time (s : seen) : Date :=
  match s with
  | Unseen => None
  | SeenTime t => t
  | SeenDate d => d
  end.

Fixpoint chronological_from (t : seen) (res : bool) (es : list TimeEvent)
  : bool :=
  match es with
  | [] => res
  | e :: es' =>
      if seen_falsy t then chronological_from (SeenTime (timestamp e)) res es'
      else chronological_from (SeenDate (timestamp e))
             (if date_lt (timestamp e) (seen_time t) then false else res) es'
  end.

Definition isChronological (es : list TimeEvent) : bool :=
  chronological_from Unseen true es.

(** [new TimeSeries({columns: ["time", c], points})] *)
Definition newTimeSeries (points : list (scalar * scalar))
  : result TimeSeries :=
  rbind (events_of_points points) (fun es =>
  if isChronological es then Ok (mkTimeSeries es)
  else Throw (Error "TimeSeries was passed non-chronological events")).

Definition size (s : TimeSeries) : Z := Z.of_nat (length (events s)).

(** [range()]: the extents of the series, [undefined] for an empty one. *)
Definition range_step (acc : option Date * option Date) (e : TimeEvent)
  : option Date * option Date :=
  let '(mn, mx) := acc in
  (match mn with
   | None => Some (timestamp e)
   | Some m => if date_lt (timestamp e) m then Some (timestamp e) else Some m
   end,
   match mx with
   | None => Some (timestamp e)
   | Some m => if date_lt m (timestamp e) then Some (timestamp e) else Some m
   end).

Definition range (s : TimeSeries) : option TimeRange :=
  match fold_left range_step (events s) (None, None) with
  | (Some mn, Some mx) => Some (mkTimeRange mn mx)
  | _ => None
  end.

(** The aggregation functions first drop the missing values
    ([undefined], [null], [NaN]). *)
Definition clean (values : list scalar) : list Q :=
  omap (fun v => match v with Num q => Some q | _ => None end) values.

Definition avg_fn (values : list scalar) : scalar :=
  let c := clean values in
  match c with
  | [] => NaN
  | _ => Num (fold_left Qplus c 0%Q / inject_Z (Z.of_nat (length c)))
  end.

(** [_.max] scans left to right from [-Infinity] ([None]); a result that is
    not finite is dropped. *)
Definition max_fn (values : list scalar) : scalar :=
  match fold_left (fun (r : option Q) (v : Q) =>
                     match r with
                     | None => Some v
                     | Some m => if Qle_bool v m then Some m else Some v
                     end) (clean values) None with
  | Some m => Num m
  | None => Undefined
  end.

Definition min_fn (values : list scalar) : scalar :=
  match fold_left (fun (r : option Q) (v : Q) =>
                     match r with
                     | None => Some v
                     | Some m => if Qle_bool m v then Some m else Some v
                     end) (clean values) None with
  | Some m => Num m
  | None => Undefined
  end.

(** A column is read by field path: the name is split at its dots and the
    segments are followed through the event's data.  The data of an event
    has one key, the column name the series was built with, so a name
    without a dot finds the value and a name with a dot finds nothing.
    A channel without a value template is read like a plain name. *)
Fixpoint contains_dot (name : string) : bool :=
  match name with
  | EmptyString => false
  | String c rest => Ascii.eqb c "."%char || contains_dot rest
  end.

Definition plain_column (column : option string) : bool :=
  match column with
  | Some name => negb (contains_dot name)
  | None => true
  end.

(** [event.get(column)] on an event of a series built with [column]. *)
Definition get (column : option string) (e : TimeEvent) : scalar :=
  if plain_column column then data e else Undefined.

(** [aggregate]: the column's values are collected event by event and
    reduced; a series without events has no entry for the column. *)
Definition aggregate (f : list scalar -> scalar) (column : option string)
    (s : TimeSeries) : scalar :=
  match events s with
  | [] => Undefined
  | es => f (map (get column) es)
  end.

Definition avg : option string -> TimeSeries -> scalar := aggregate avg_fn.
Definition max : option string -> TimeSeries -> scalar := aggregate max_fn.
Definition min : option string -> TimeSeries -> scalar := aggregate min_fn.

(** [at(pos)]: the event list is indexed as an Immutable list, where a
    negative index counts from the end.  [None] stands for a position
    without an event: nothing usable comes back, and whatever the caller
    does next with the result raises. *)
Definition at_ (s : TimeSeries) (pos : option jsint) : option TimeEvent :=
  if 0 <? size s then
    match pos with
    | Some (Int z) =>
        let k := if z <? 0 then size s + z else z in
        if (0 <=? k) && (k <? size s) then events s !! Z.to_nat k else None
    | _ => None
    end
  else None.

(** The scan of [bisect]: [for (; i < size; i++)] reads the timestamp of
    the event at [i] and stops at the first one that is not before [tms].
    [n] is the number of positions left before [size]. *)
Fixpoint bisect_loop (n : nat) (s : TimeSeries) (tms : Date) (i : Z)
  : result (option jsint) :=
  match n with
  | O => Ok (Some (Int (i - 1)))
  | S n' =>
      match at_ s (Some (Int i)) with
      | None => Throw (Error "Unable to get timestamp")
      | Some e =>
          let ts := timestamp e in
          if date_lt tms ts then
            Ok (Some (Int (if 0 <=? i - 1 then i - 1 else 0)))
          else if date_eq ts tms then Ok (Some (Int i))
          else bisect_loop n' s tms (i + 1)
      end
  end.

(** [bisect(t, b)]: scan from position [b || 0]. *)
Definition bisect (s : TimeSeries) (t : Date) (b : jsint)
  : result (option jsint) :=
  let i := match b with
           | NaNi | Int 0 => Int 0
           | _ => b
           end in
  if size s =? 0 then Ok None
  else match i with
       | Int z => bisect_loop (Z.to_nat (size s - z)) s t z
       | PInf => Ok (Some PInf)
       | NInf | NaNi =>
           match at_ s (Some i) with
           | None => Throw (Error "Unable to get timestamp")
           | Some _ => Ok (Some i)
           end
       end.

End Pond.

(** ** The curve-name map *)

(** The object literal [csMap], in source order (the key [curvestep] is
    written twice). *)
Definition csMap_literal : list (string * string) :=
  [ ("curvestep", "curveStep");
    ("curvebasis", "curvebasis");
    ("curvebasisopen", "curveBasisOpen");
    ("curvebundle", "curveBundle");
    ("curvecardinal", "curveCardinal");
    ("curvecardinalopen", "curveCardinalOpen");
    ("curvecatmullrom", "curveCatmullRom");
    ("curvecatmullromopen", "curveCatmullRomOpen");
    ("curvelinear", "curveLinear");
    ("curvemonotonex", "curveMonotoneX");
    ("curvemonotoney", "curveMonotoneY");
    ("curvenatural", "curveNatural");
    ("curveradial", "curveRadial");
    ("curvestep", "curveStep");
    ("curvestepafter", "curveStepAfter");
    ("curvestepbefore", "curveStepBefore") ].

(** Own properties of the object: a later entry for a key replaces the
    earlier one. *)
Definition csMap : gmap string string :=
  foldl (fun m (kv : string * string) => <[kv.1 := kv.2]> m) ∅ csMap_literal.

(** Property names every plain object inherits from [Object.prototype]. *)
Definition object_prototype_names : list string :=
  [ "constructor"; "__defineGetter__"; "__defineSetter__"; "hasOwnProperty";
    "__lookupGetter__"; "__lookupSetter__"; "isPrototypeOf";
    "propertyIsEnumerable"; "toString"; "valueOf"; "__proto__";
    "toLocaleString" ].

(** What a property read can give for the interpolation attribute: nothing,
    a string, or an inherited member (a function or object). *)
Inductive property : Type :=
| PUndefined
| PString (s : string)
| PInherited.

(** The property key a value is converted to; for a function it is its
    source text, which is neither a key of the map nor a member name. *)
Definition property_key (p : property) : string :=
  match p with
  | PUndefined => "undefined"
  | PString s => s
  | PInherited => "function () { [native code] }"
  end.

(** [csMap[k]]: own properties first, then the prototype. *)
Definition csMap_get (k : string) : property :=
  match csMap !! k with
  | Some v => PString v
  | None =>
      if bool_decide (k ∈ object_prototype_names) then PInherited
      else PUndefined
  end.

(** [Object.values(csMap)] *)
Definition csMap_values : list string := (map_to_list csMap).*2.

(** ** Tag attributes and snapshots *)

Record TagAttrs : Type := mkTagAttrs {
  displayname : option string;
  units : option string;
  unitsformat : string;
  caption : bool;
  interpolation : string;
  showgrid : bool;
  showtracker : bool;
  height : string;
  opacity : string;
  strokewidth : string;
  strokecolor : string;
  value : option string
}.

(** A configuration snapshot: every attribute may be absent. *)
Record Snapshot : Type := mkSnapshot {
  s_id : option string;
  s_displayname : option string;
  s_units : option string;
  s_unitsformat : option string;
  s_caption : option bool;
  s_interpolation : property;
  s_showgrid : option bool;
  s_showtracker : option bool;
  s_height : option string;
  s_opacity : option string;
  s_strokewidth : option string;
  s_strokecolor : option string;
  s_value : option string
}.

Definition preProcessSnapshot (snapshot : Snapshot) : Snapshot :=
  {| s_id := s_id snapshot;
     s_displayname := s_displayname snapshot;
     s_units := s_units snapshot;
     s_unitsformat := s_unitsformat snapshot;
     s_caption := s_caption snapshot;
     s_interpolation := csMap_get (property_key (s_interpolation snapshot));
     s_showgrid := s_showgrid snapshot;
     s_showtracker := s_showtracker snapshot;
     s_height := s_height snapshot;
     s_opacity := s_opacity snapshot;
     s_strokewidth := s_strokewidth snapshot;
     s_strokecolor := s_strokecolor snapshot;
     s_value := s_value snapshot |}.

(** [types.optional(types.enumeration(Object.values(csMap)), "curveStep")] *)
Definition interpolation_of (p : property) : result string :=
  match p with
  | PUndefined => Ok "curveStep"
  | PString s =>
      if bool_decide (s ∈ csMap_values) then Ok s
      else Throw (Error "[mobx-state-tree] value is not assignable to type")
  | PInherited =>
      Throw (Error "[mobx-state-tree] value is not assignable to type")
  end.

Definition attrs_of (snapshot : Snapshot) : result TagAttrs :=
  rbind (interpolation_of (s_interpolation snapshot)) (fun interp =>
  Ok {| displayname := s_displayname snapshot;
        units := s_units snapshot;
        unitsformat := default ".1f" (s_unitsformat snapshot);
        caption := default true (s_caption snapshot);
        interpolation := interp;
        showgrid := default false (s_showgrid snapshot);
        showtracker := default true (s_showtracker snapshot);
        height := default "200" (s_height snapshot);
        opacity := default "0.8" (s_opacity snapshot);
        strokewidth := default "1" (s_strokewidth snapshot);
        strokecolor := default "#000000" (s_strokecolor snapshot);
        value := s_value snapshot |}).

(** ** The channel model *)

(** The tracker is whatever the chart hands over: a date (its time value),
    [null], or never assigned. *)
Inductive trackerpos : Type :=
| TUndefined
| TNull
| TDate (ms : Z).

(** The declared properties and the fields the actions assign.  The
    underscore fields are not declared in the model: they exist once an
    action has assigned them.  The constant [type] and the [children] of
    the tag play no part in what follows and are left out. *)
Record Model : Type := mkModel {
  id : string;
  attrs : TagAttrs;
  tracker : trackerpos;
  _value : raw;
  _series : option Pond.TimeSeries;
  _avg : scalar;
  _max : scalar;
  _min : scalar;
  _minTime : option Pond.Date;
  _maxTime : option Pond.Date
}.

Definition set_tracker (t : trackerpos) (c : Model) : Model :=
  mkModel (id c) (attrs c) t (_value c) (_series c) (_avg c) (_max c)
    (_min c) (_minTime c) (_maxTime c).
Definition set__value (v : raw) (c : Model) : Model :=
  mkModel (id c) (attrs c) (tracker c) v (_series c) (_avg c) (_max c)
    (_min c) (_minTime c) (_maxTime c).
Definition set__series (s : Pond.TimeSeries) (c : Model) : Model :=
  mkModel (id c) (attrs c) (tracker c) (_value c) (Some s) (_avg c) (_max c)
    (_min c) (_minTime c) (_maxTime c).
Definition set__avg (v : scalar) (c : Model) : Model :=
  mkModel (id c) (attrs c) (tracker c) (_value c) (_series c) v (_max c)
    (_min c) (_minTime c) (_maxTime c).
Definition set__max (v : scalar) (c : Model) : Model :=
  mkModel (id c) (attrs c) (tracker c) (_value c) (_series c) (_avg c) v
    (_min c) (_minTime c) (_maxTime c).
Definition set__min (v : scalar) (c : Model) : Model :=
  mkModel (id c) (attrs c) (tracker c) (_value c) (_series c) (_avg c)
    (_max c) v (_minTime c) (_maxTime c).
Definition set__minTime (d : Pond.Date) (c : Model) : Model :=
  mkModel (id c) (attrs c) (tracker c) (_value c) (_series c) (_avg c)
    (_max c) (_min c) (Some d) (_maxTime c).
Definition set__maxTime (d : Pond.Date) (c : Model) : Model :=
  mkModel (id c) (attrs c) (tracker c) (_value c) (_series c) (_avg c)
    (_max c) (_min c) (_minTime c) (Some d).

(** Creating a channel from a snapshot: the snapshot is preprocessed, the
    attributes are checked against their types and take their defaults, and
    no undeclared field is assigned.  [guid] is what [guidGenerator]
    produces for a snapshot without an id. *)
Definition create (guid : string) (snapshot : Snapshot) : result Model :=
  let snapshot := preProcessSnapshot snapshot in
  rbind (attrs_of snapshot) (fun a =>
  Ok {| id := default guid (s_id snapshot);
        attrs := a;
        tracker := TUndefined;
        _value := NoValue;
        _series := None;
        _avg := Undefined;
        _max := Undefined;
        _min := Undefined;
        _minTime := None;
        _maxTime := None |}).

(** The derived attributes of a channel are all unset. *)
Definition derived_unset (c : Model) : Prop :=
  _value c = NoValue /\ _series c = None /\
  _avg c = Undefined /\ _max c = Undefined /\ _min c = Undefined /\
  _minTime c = None /\ _maxTime c = None.

(** ** Actions: state and exceptions *)

(** An action runs on the channel ([self]) and either returns or throws; the
    channel it leaves behind carries every assignment made so far. *)
Definition action (A : Type) : Type := Model -> result A * Model.

Definition ret {A} (a : A) : action A := fun c => (Ok a, c).

Definition bind {A B} (m : action A) (k : A -> action B) : action B :=
  fun c =>
    match m c with
    | (Ok a, c') => k a c'
    | (Throw e, c') => (Throw e, c')
    end.

Definition lift {A} (r : result A) : action A := fun c => (r, c).

Definition self : action Model := fun c => (Ok c, c).

Definition assign (f : Model -> Model) : action unit :=
  fun c => (Ok tt, f c).

Declare Scope action_scope.
Delimit Scope action_scope with action.
Notation "x <- m ;; k" := (bind m (fun x => k))
  (at level 100, m at next level, right associativity) : action_scope.
Notation "m ;; k" := (bind m (fun _ => k))
  (at level 100, right associativity) : action_scope.

(** ** Building the points *)

Definition point : Type := scalar * scalar.

(** [v[0][i]] *)
Definition read (v : raw) (i : nat) : result scalar :=
  rbind (raw_first v) (fun c => column_at c i).

Definition column_length (v : raw) : nat :=
  match v with
  | Value (Column xs :: _) => length xs
  | _ => 0%nat
  end.

Definition inspect {A : Type} (x : A) : { y : A | x = y } := exist _ x eq_refl.

(** The loop of [updateValue]:
    [for (let i = 0; i <= parent._value[0][i]; i++)
       points.push([parent._value[0][i], self._value[0][i]])].
    It goes on while the index does not exceed the time value read at that
    index; a read past the end of the time column gives [undefined], which
    ends it. *)
Equations? points_loop (pv cv : raw) (i : nat) (points : list point)
  : result (list point) by wf (column_length pv - i)%nat lt :=
  points_loop pv cv i points with inspect (read pv i) := {
    | exist _ (Throw e) _ => Throw e
    | exist _ (Ok t) Ht with inspect (index_le i t) := {
        | exist _ false _ => Ok points
        | exist _ true Hle with read cv i := {
            | Throw e => Throw e
            | Ok v => points_loop pv cv (S i) (points ++ [(t, v)]) } } }.
Proof.
  enough (i < column_length pv)%nat by lia.
  revert Ht Hle. unfold read, raw_first, column_length.
  destruct pv as [|[|[|xs] cols]]; simpl; try discriminate.
  intros [= <-] Hle.
  destruct (xs !! i) eqn:E; [|discriminate].
  exact (lookup_lt_Some _ _ _ E).
Qed.

(** [series.range().begin()] and [series.range().end()]: a method call on
    [undefined] is a TypeError. *)
Definition range_begin (s : Pond.TimeSeries) : result Pond.Date :=
  match Pond.range s with
  | Some r => Ok (Pond.begin r)
  | None => Throw TypeError
  end.

Definition range_end (s : Pond.TimeSeries) : result Pond.Date :=
  match Pond.range s with
  | Some r => Ok (Pond.end_ r)
  | None => Throw TypeError
  end.

(** Arithmetic of [getValue]: a quotient of differences of time values. *)
Inductive jsnum : Type :=
| Fin (q : Q)
| PosInf
| NegInf
| NotANumber.

(** [+d] for a date *)
Definition date_number (d : Pond.Date) : option Z := d.

(** [a - b] on time values *)
Definition num_sub (a b : option Z) : option Z :=
  match a, b with
  | Some x, Some y => Some (x - y)
  | _, _ => None
  end.

(** [a / b]: dividing by zero gives an infinity, or NaN for [0 / 0]. *)
Definition num_div (a b : option Z) : jsnum :=
  match a, b with
  | Some x, Some y =>
      if y =? 0 then
        if 0 <? x then PosInf else if x <? 0 then NegInf else NotANumber
      else Fin (inject_Z x / inject_Z y)
  | _, _ => NotANumber
  end.

(** [x * n] for a size [n] *)
Definition num_mul_size (x : jsnum) (n : Z) : jsnum :=
  match x with
  | Fin q => Fin (q * inject_Z n)
  | PosInf => if n =? 0 then NotANumber else PosInf
  | NegInf => if n =? 0 then NotANumber else NegInf
  | NotANumber => NotANumber
  end.

(** [Math.floor] *)
Definition floor (x : jsnum) : jsint :=
  match x with
  | Fin q => Int (Qfloor q)
  | PosInf => PInf
  | NegInf => NInf
  | NotANumber => NaNi
  end.

(** [getValue] of the view: the value at the current tracker position.
    Only the final lookup [series.at(i).get(item.value)] is inside the
    [try].  The event is read under the channel's own column name, taken
    here as a plain name, under which the read finds the event's value
    (compare [Pond.get]). *)
Definition getValue (item : Model) (timerange : Pond.TimeRange)
  : result scalar :=
  match tracker item with
  | TUndefined | TNull => Ok Undefined
  | TDate t =>
      let b := date_number (Pond.begin timerange) in
      let e := date_number (Pond.end_ timerange) in
      let approx := num_div (num_sub (Some t) b) (num_sub e b) in
      match _series item with
      | None => Throw TypeError
      | Some series =>
          let ii := floor (num_mul_size approx (Pond.size series)) in
          rbind (Pond.bisect series (Some t) ii) (fun i =>
          match Pond.at_ series i with
          | Some ev => Ok (Pond.data ev)
          | None => Ok Null
          end)
      end
  end.

Section Actions.

(** The owning time-series container and the template runner live in other
    files of the repository; the channel uses them through this interface. *)
Context {Parent : Type}.
Variable parent__value : Parent -> raw.
Variable initialRange : Parent -> Pond.TimeRange.
Variable updateView : Parent -> Parent.

Context {DataObj : Type}.
Variable runTemplate : option string -> DataObj -> raw.

(** [handleTrackerChanged(t)] *)
Definition handleTrackerChanged (t : trackerpos) (w : Model * Parent)
  : Model * Parent :=
  (set_tracker t w.1, updateView w.2).

(** [updateValue(store)], with [dataObj] the [store.task.dataObj]. *)
Definition updateValue (parent : Parent) (dataObj : DataObj) : action unit :=
  (c <- self ;;
   assign (set__value (runTemplate (value (attrs c)) dataObj)) ;;
   c <- self ;;
   points <- lift (points_loop (parent__value parent) (_value c) 0 []) ;;
   series <- lift (Pond.newTimeSeries points) ;;
   assign (set__avg (parseInt10 (Pond.avg (value (attrs c)) series))) ;;
   assign (set__max (parseInt10 (Pond.max (value (attrs c)) series))) ;;
   assign (set__min (parseInt10 (Pond.min (value (attrs c)) series))) ;;
   assign (set__series series) ;;
   b <- lift (range_begin series) ;;
   assign (set__minTime b) ;;
   e <- lift (range_end series) ;;
   assign (set__maxTime e))%action.

(** What the view hands to the chart components. *)
Record Rendered : Type := mkRendered {
  trackerPosition : trackerpos;
  valueAxis : option scalar;
  labelAxis_min : scalar;
  labelAxis_max : scalar;
  summary : scalar * scalar * scalar;
  chart_minTime : Pond.Date;
  chart_maxTime : Pond.Date
}.

(** [!item._value]: an array is truthy, also an empty one. *)
Definition raw_falsy (v : raw) : bool :=
  match v with
  | NoValue => true
  | Value _ => false
  end.

Definition string_truthy (s : option string) : bool :=
  match s with
  | Some s => negb (String.eqb s "")
  | None => false
  end.

(** [HtxTimeSeriesChannelView]: [Ok None] is a render of nothing ([null]).
    The markup is reduced to the properties computed in this file; the
    number formatting of the summary is left to the chart. *)
Definition HtxTimeSeriesChannelView (item : Model) (parent : Parent)
  : result (option Rendered) :=
  if raw_falsy (_value item) then Ok None
  else
    let timerange := initialRange parent in
    rbind (getValue item timerange) (fun uval =>
    let value := match tracker item with
                 | TUndefined => Undefined
                 | TNull => Null
                 | TDate _ => uval
                 end in
    let showtracker := showtracker (attrs item) && truthy uval in
    match _series item with
    | None => Throw TypeError
    | Some series =>
        rbind (match tracker item with
               | TDate _ => getValue item timerange
               | _ => Ok Undefined
               end) (fun _ =>
        rbind (range_end series) (fun e =>
        rbind (range_begin series) (fun b =>
        Ok (Some
          {| trackerPosition := if showtracker then tracker item else TNull;
             valueAxis := if string_truthy (units (attrs item))
                          then Some value else None;
             labelAxis_min := _min item;
             labelAxis_max := _max item;
             summary := (_max item, _avg item, _min item);
             chart_minTime := b;
             chart_maxTime := e |}))))
    end).

(** The channel after a run of tracker changes. *)
Definition trackers_changed (ts : list trackerpos) (w : Model * Parent)
  : Model * Parent :=
  foldl (fun w t => handleTrackerChanged t w) w ts.

End Actions.

(** ** Direct computation over the raw arrays *)

(** The sample of a value column at an index; past the end it is missing. *)
Definition sample_at (vals : list scalar) (i : nat) : scalar :=
  default Undefined (vals !! i).

(** One point per time value, paired with the sample at the same index. *)
Fixpoint pair_from (i : nat) (ts vals : list scalar) : list point :=
  match ts with
  | [] => []
  | t :: ts' => (t, sample_at vals i) :: pair_from (S i) ts' vals
  end.

Definition direct_points (times vals : list scalar) : list point :=
  pair_from 0 times vals.

(** How far the loop of [updateValue] gets from index [i]: the number of
    consecutive time values that are at least their own index. *)
Fixpoint run_length (i : nat) (ts : list scalar) : nat :=
  match ts with
  | [] => 0%nat
  | t :: ts' => if index_le i t then S (run_length (S i) ts') else 0%nat
  end.


Definition number_of (v : scalar) : option Q :=
  match v with
  | Num q => Some q
  | _ => None
  end.


Definition is_mean (xs : list Q) (a : Q) : Prop :=
  (a * inject_Z (Z.of_nat (length xs)) == fold_right Qplus 0 xs)%Q.









(** ** Auxiliary definitions for the proofs *)



(** Timestamps in order: none is earlier than its predecessor [prev]. *)
Fixpoint ordered_from (prev : Pond.Date) (es : list Pond.TimeEvent) : Prop :=
  match es with
  | [] => True
  | e :: es' =>
      Pond.date_lt (Pond.timestamp e) prev = false /\
      ordered_from (Pond.timestamp e) es'
  end.

(** The scan of [range] handles the two extents independently. *)
Definition lo_step (mn : option Pond.Date) (e : Pond.TimeEvent)
  : option Pond.Date :=
  (Pond.range_step (mn, None) e).1.

Definition hi_step (mx : option Pond.Date) (e : Pond.TimeEvent)
  : option Pond.Date :=
  (Pond.range_step (None, mx) e).2.

(** The channel after the statistics and the series are stored. *)
Definition with_series (v : raw) (series : Pond.TimeSeries) (c : Model)
  : Model :=
  set__series series
    (set__min (parseInt10 (Pond.min (value (attrs c)) series))
       (set__max (parseInt10 (Pond.max (value (attrs c)) series))
          (set__avg (parseInt10 (Pond.avg (value (attrs c)) series))
             (set__value v c)))).

(** A time column in order: it starts at [prev] or later and never
    decreases. *)
Fixpoint nondecreasing (prev : Q) (qs : list Q) : bool :=
  match qs with
  | [] => true
  | q :: rest => Qle_bool prev q && nondecreasing q rest
  end.

Definition event_of (p : Q * scalar) : Pond.TimeEvent :=
  Pond.mkTimeEvent (Pond.newDate p.1) p.2.

(** ** A concrete container and task *)

(** The container of the examples has the fields the channel reads;
    [updateView] counts the requested re-renders.  The task data of the
    examples already is the raw value of the channel. *)
Record Container : Type := mkContainer {
  c__value : raw;
  c_initialRange : Pond.TimeRange;
  c__needsUpdate : nat
}.

Definition c_updateView (p : Container) : Container :=
  mkContainer (c__value p) (c_initialRange p) (S (c__needsUpdate p)).

Definition task_value (template : option string) (dataObj : raw) : raw :=
  dataObj.

Definition sensor_snapshot (interp : property) : Snapshot :=
  {| s_id := None; s_displayname := None; s_units := None;
     s_unitsformat := None; s_caption := None; s_interpolation := interp;
     s_showgrid := None; s_showtracker := None; s_height := None;
     s_opacity := None; s_strokewidth := None; s_strokecolor := None;
     s_value := Some "$sensor1" |}.

Definition fresh_channel : Model :=
  {| id := "channel-1";
     attrs := {| displayname := None; units := None; unitsformat := ".1f";
                 caption := true; interpolation := "curveStep";
                 showgrid := false; showtracker := true; height := "200";
                 opacity := "0.8"; strokewidth := "1";
                 strokecolor := "#000000"; value := Some "$sensor1" |};
     tracker := TUndefined; _value := NoValue; _series := None;
     _avg := Undefined; _max := Undefined; _min := Undefined;
     _minTime := None; _maxTime := None |}.

Definition container_of (v : raw) (b e : Z) : Container :=
  mkContainer v (Pond.mkTimeRange (Some b) (Some e)) 0.

(** The same channel for a template that names a nested field. *)
Definition dotted_channel : Model :=
  {| id := "channel-2";
     attrs := {| displayname := None; units := None; unitsformat := ".1f";
                 caption := true; interpolation := "curveStep";
                 showgrid := false; showtracker := true; height := "200";
                 opacity := "0.8"; strokewidth := "1";
                 strokecolor := "#000000"; value := Some "$sensor.x" |};
     tracker := TUndefined; _value := NoValue; _series := None;
     _avg := Undefined; _max := Undefined; _min := Undefined;
     _minTime := None; _maxTime := None |}.

(** [updateValue] on the fresh channel, for a time column and a value
    column. *)
Definition run_on (times vals : list Q) : result unit * Model :=
  updateValue c__value task_value
    (container_of (Value [Column (map Num times)]) 0 100)
    (Value [Column (map Num vals)]) fresh_channel.

(** The channel after an update over three samples at the times 1000, 1500
    and 2000, shown over the time range from 1000 to 2000, with the tracker
    moved to [t]. *)
Definition tracked_channel (t : Z) : Model * Container :=
  handleTrackerChanged c_updateView (TDate t)
    ((run_on [1000; 1500; 2000]%Q [1; 2; 3]%Q).2,
     container_of (Value [Column (map Num [1000; 1500; 2000]%Q)]) 1000 2000).

(** ** The chart row and the selection brush *)

(** What the tracker info box shows as value: the placeholder ["--"] or the
    value under the tracker. *)
Inductive info_value : Type :=
| Placeholder
| InfoValue (v : scalar).

(** [trackerInfoValues] of the view: a single entry, labelled with the units
    or, without units, with ["value"]; its value is [getValue()] when the
    tracker is set and ["--"] otherwise. *)
Definition trackerInfoValues (item : Model) (timerange : Pond.TimeRange)
  : result (list (string * info_value)) :=
  let label := match units (attrs item) with
               | Some u => if string_truthy (Some u) then u else "value"
               | None => "value"
               end in
  rbind (match tracker item with
         | TDate _ =>
             rbind (getValue item timerange) (fun v => Ok (InfoValue v))
         | _ => Ok Placeholder
         end) (fun value =>
  Ok [(label, value)]).

(** [`${v}`] for a nullable string *)
Definition template_string (v : option string) : string :=
  match v with
  | Some s => s
  | None => "null"
  end.

(** The properties of the [ChartRow] element and of the axes inside it.
    [None] for [row_trackerInfoValues] is the value [false]; [None] for
    [row_valueAxis] means that no [ValueAxis] element is rendered.  The
    summary values are listed before formatting. *)
Record ChartRowProps : Type := mkChartRowProps {
  row_height : string;
  row_key : string;
  row_trackerInfoValues : option (list (string * info_value));
  row_trackerInfoHeight : Z;
  row_trackerInfoWidth : Z;
  axis_id : string;
  axis_label : option string;
  axis_values : list (string * scalar);
  axis_width : Z;
  row_valueAxis : option (scalar * string)
}.

Section Row.

Context {Parent : Type}.
Variable initialRange : Parent -> Pond.TimeRange.

(** The [ChartRow] of a render; it is reached once everything the view
    computes before it has been computed. *)
Definition ChartRow (item : Model) (parent : Parent)
  : result (option ChartRowProps) :=
  rbind (HtxTimeSeriesChannelView initialRange item parent) (fun rendered =>
  match rendered with
  | None => Ok None
  | Some rd =>
      rbind (trackerInfoValues item (initialRange parent)) (fun info =>
      Ok (Some
        {| row_height := height (attrs item);
           row_key := "row-" +:+ template_string (value (attrs item));
           row_trackerInfoValues :=
             if string_truthy (units (attrs item)) then None else Some info;
           row_trackerInfoHeight := 10 + Z.of_nat (length info) * 16;
           row_trackerInfoWidth := 140;
           axis_id := template_string (value (attrs item)) +:+ "_axis";
           axis_label := if caption (attrs item)
                         then displayname (attrs item) else Some "";
           axis_values := if caption (attrs item)
                          then [("Max", _max item); ("Avg", _avg item);
                                ("Min", _min item)]
                          else [];
           axis_width := if caption (attrs item) then 140 else 0;
           row_valueAxis :=
             match valueAxis rd, units (attrs item) with
             | Some v, Some u => Some (v, u)
             | _, _ => None
             end |}))
  end).

End Row.

Section Summary.

Context {Parent : Type}.
Variable initialRange : Parent -> Pond.TimeRange.

(** [format] of d3-format, a library outside the repository: [None] for a
    specifier it refuses (it raises), otherwise the formatting function. *)
Variable format : string -> option (scalar -> string).

(** The view with the summary of the label axis.  The specifier
    [item.unitsformat] is compiled once the value under the tracker is
    resolved and before the series is asked for its range; the three
    statistics are then formatted. *)
Definition HtxTimeSeriesChannelView_summary (item : Model) (parent : Parent)
  : result (option (Rendered * list (string * string))) :=
  if raw_falsy (_value item) then Ok None
  else
    rbind (getValue item (initialRange parent)) (fun _ =>
    match format (unitsformat (attrs item)) with
    | None => Throw (Error "invalid format")
    | Some formatFn =>
        rbind (HtxTimeSeriesChannelView initialRange item parent) (fun r =>
        Ok (option_map
              (fun rd => (rd, [("Max", formatFn (_max item));
                               ("Avg", formatFn (_avg item));
                               ("Min", formatFn (_min item))])) r))
    end).

End Summary.

(** The formatter of the examples knows the default specifier only and
    prints a placeholder. *)
Definition c_format (specifier : string) : option (scalar -> string) :=
  if String.eqb specifier ".1f" then Some (fun _ => "#") else None.

Section Regions.

(** The regions of the container are models of another file; the brush
    reads their [selected] and [highlighted] flags and asks the first of
    their [states] for its colour. *)
Context {State : Type}.
Variable getSelectedColor : State -> string.

Record Region : Type := mkRegion {
  selected : bool;
  highlighted : bool;
  states : list State
}.

(** The [style] callback of the [MultiBrush]: the fill colour of the brush
    with index [i]. *)
Definition brush_style (regions : list Region) (i : nat) : result string :=
  match regions !! i with
  | None => Ok "#cccccc"
  | Some r =>
      if selected r || highlighted r then Ok "#ff0000"
      else match states r !! 0%nat with
           | Some st => Ok (getSelectedColor st)
           | None => Throw TypeError
           end
  end.

End Regions.

(** ** The loop *)

Lemma points_loop_step (pv cv : raw) (i : nat) (points : list point) :
  points_loop pv cv i points =
  match read pv i with
  | Throw e => Throw e
  | Ok t =>
      if index_le i t then
        match read cv i with
        | Throw e => Throw e
        | Ok v => points_loop pv cv (S i) (points ++ [(t, v)])
        end
      else Ok points
  end.
Proof.
  funelim (points_loop pv cv i points);
    repeat match goal with
           | H : read _ _ = _ |- _ => rewrite H
           | H : index_le _ _ = _ |- _ => rewrite H
           end; reflexivity.
Qed.

Lemma read_column (xs : list scalar) (cols : list column) (i : nat) :
  read (Value (Column xs :: cols)) i = Ok (sample_at xs i).
Proof. reflexivity. Qed.

Lemma points_loop_from (times vals : list scalar) (cols cols' : list column) :
  forall (ts : list scalar) (i : nat) (acc : list point),
    drop i times = ts ->
    points_loop (Value (Column times :: cols)) (Value (Column vals :: cols'))
      i acc
    = Ok (acc ++ pair_from i (take (run_length i ts) ts) vals).
Proof.
  induction ts as [|t ts' IH]; intros i acc Hdrop;
    rewrite points_loop_step, !read_column.
  - assert (sample_at times i = Undefined) as ->.
    { unfold sample_at. apply drop_nil_inv in Hdrop.
      now rewrite (proj2 (lookup_ge_None times i) Hdrop). }
    simpl. now rewrite app_nil_r.
  - assert (times !! i = Some t) as Hi.
    { rewrite <- (Nat.add_0_r i), <- lookup_drop, Hdrop. reflexivity. }
    assert (sample_at times i = t) as -> by (unfold sample_at; now rewrite Hi).
    simpl.
    destruct (index_le i t) eqn:Hle.
    + rewrite (drop_S _ _ _ Hi) in Hdrop. injection Hdrop as Hdrop.
      rewrite (IH (S i) _ Hdrop). simpl.
      now rewrite <- app_assoc.
    + simpl. now rewrite app_nil_r.
Qed.

(** The points built by the loop are the direct pairing of a prefix of the
    time column. *)
Lemma points_loop_prefix (times vals : list scalar)
    (cols cols' : list column) :
  points_loop (Value (Column times :: cols)) (Value (Column vals :: cols'))
    0 []
  = Ok (direct_points (take (run_length 0 times) times) vals).
Proof. now rewrite (points_loop_from times vals cols cols' times 0 []). Qed.



Lemma pair_from_length (ts vals : list scalar) :
  forall i : nat, length (pair_from i ts vals) = length ts.
Proof. induction ts as [|t ts' IH]; intros i; simpl; [|rewrite IH]; reflexivity. Qed.


Lemma pair_from_times (ts vals : list scalar) :
  forall i : nat, map fst (pair_from i ts vals) = ts.
Proof.
  induction ts as [|t ts' IH]; intros i; simpl; [|rewrite IH]; reflexivity.
Qed.

(** ** Truncation *)

Lemma Qle_bool_false (x y : Q) : Qle_bool x y = false -> (y < x)%Q.
Proof.
  intros H. apply Qnot_le_lt. intros Hle.
  apply Qle_bool_iff in Hle. congruence.
Qed.

Lemma Qtrunc_inject (z : Z) : Qtrunc (inject_Z z) = z.
Proof.
  unfold Qtrunc. destruct (Qle_bool 0 (inject_Z z));
    [apply Qfloor_Z | apply Qceiling_Z].
Qed.

(** [Qtrunc] drops the fractional part and keeps the sign: for [q >= 0] it
    is the largest integer below [q], for [q < 0] the smallest above. *)
Lemma Qtrunc_spec (q : Q) :
  ((0 <= q)%Q ->
   (inject_Z (Qtrunc q) <= q)%Q /\ (q < inject_Z (Qtrunc q + 1))%Q) /\
  ((q < 0)%Q ->
   (q <= inject_Z (Qtrunc q))%Q /\ (inject_Z (Qtrunc q - 1) < q)%Q).
Proof.
  unfold Qtrunc. split; intros H.
  - apply Qle_bool_iff in H. rewrite H.
    split; [apply Qfloor_le | apply Qlt_floor].
  - destruct (Qle_bool 0 q) eqn:E.
    + apply Qle_bool_iff in E. exfalso. exact (Qlt_not_le _ _ H E).
    + split; [apply Qle_ceiling | apply Qceiling_lt].
Qed.

Lemma Qtrunc_mono (p q : Q) : (p <= q)%Q -> Qtrunc p <= Qtrunc q.
Proof.
  intros Hpq. unfold Qtrunc.
  destruct (Qle_bool 0 p) eqn:Ep, (Qle_bool 0 q) eqn:Eq.
  - now apply Qfloor_resp_le.
  - apply Qle_bool_iff in Ep. apply Qle_bool_false in Eq.
    exfalso. apply (Qlt_not_le _ _ Eq). now apply Qle_trans with p.
  - apply Qle_bool_false in Ep. apply Qle_bool_iff in Eq.
    apply Z.le_trans with 0.
    + change 0 with (Qceiling 0). apply Qceiling_resp_le.
      now apply Qlt_le_weak.
    + change 0 with (Qfloor 0). now apply Qfloor_resp_le.
  - now apply Qceiling_resp_le.
Qed.





(** ** The aggregation functions *)

Lemma clean_numbers (values : list scalar) :
  Pond.clean values = omap number_of values.
Proof. reflexivity. Qed.

Lemma fold_left_Qplus (xs : list Q) :
  forall a : Q, (fold_left Qplus xs a == a + fold_right Qplus 0 xs)%Q.
Proof.
  induction xs as [|x xs IH]; intros a; simpl.
  - ring.
  - rewrite IH. ring.
Qed.

Lemma avg_fn_mean (values : list scalar) :
  Pond.clean values <> [] ->
  exists a : Q, Pond.avg_fn values = Num a /\ is_mean (Pond.clean values) a.
Proof.
  intros Hne. unfold Pond.avg_fn.
  destruct (Pond.clean values) as [|x xs] eqn:E; [congruence|].
  eexists. split; [reflexivity|].
  unfold is_mean. rewrite fold_left_Qplus.
  set (n := inject_Z (Z.of_nat (length (x :: xs)))).
  assert (~ n == 0)%Q as Hn.
  { unfold n, Qeq. simpl. lia. }
  field. exact Hn.
Qed.

Lemma avg_fn_empty (values : list scalar) :
  Pond.clean values = [] -> Pond.avg_fn values = NaN.
Proof. intros E. unfold Pond.avg_fn. now rewrite E. Qed.





Lemma max_fn_empty (values : list scalar) :
  Pond.clean values = [] -> Pond.max_fn values = Undefined.
Proof. intros E. unfold Pond.max_fn. now rewrite E. Qed.

Lemma min_fn_empty (values : list scalar) :
  Pond.clean values = [] -> Pond.min_fn values = Undefined.
Proof. intros E. unfold Pond.min_fn. now rewrite E. Qed.

(** ** Integer samples *)















(** ** Reading a column by name *)


Lemma get_dotted (column : option string) (es : list Pond.TimeEvent) :
  Pond.plain_column column = false ->
  Pond.clean (map (Pond.get column) es) = [].
Proof.
  intros H. induction es as [|e es IH]; [reflexivity|].
  simpl. unfold Pond.get at 1. rewrite H. exact IH.
Qed.

(** ** Series construction *)

Lemma events_of_points_data (points : list point) :
  forall es : list Pond.TimeEvent,
    Pond.events_of_points points = Ok es ->
    map Pond.data es = map snd points.
Proof.
  induction points as [|[t v] rest IH]; intros es; simpl.
  - now intros [= <-].
  - destruct (Pond.timestampFromArg t) as [d|]; simpl; [|discriminate].
    destruct (Pond.events_of_points rest) as [es'|]; simpl; [|discriminate].
    intros [= <-]. simpl. now rewrite (IH es' eq_refl).
Qed.

Lemma events_of_points_length (points : list point) :
  forall es : list Pond.TimeEvent,
    Pond.events_of_points points = Ok es -> length es = length points.
Proof.
  intros es H. apply events_of_points_data in H.
  now rewrite <- (length_map Pond.data), H, length_map.
Qed.

(** Points whose time values are all numbers turn into events. *)
Lemma events_of_points_numbers (qs : list Q) (vals : list scalar) :
  forall i : nat,
    Pond.events_of_points (pair_from i (map Num qs) vals)
    = Ok (map (fun p : Q * scalar => Pond.mkTimeEvent (Pond.newDate p.1) p.2)
              (zip qs (map (sample_at vals) (seq i (length qs))))).
Proof.
  induction qs as [|q qs IH]; intros i; simpl; [reflexivity|].
  now rewrite IH.
Qed.

Lemma newTimeSeries_inv (points : list point) (s : Pond.TimeSeries) :
  Pond.newTimeSeries points = Ok s ->
  Pond.events_of_points points = Ok (Pond.events s) /\
  Pond.isChronological (Pond.events s) = true.
Proof.
  unfold Pond.newTimeSeries.
  destruct (Pond.events_of_points points) as [es|]; simpl; [|discriminate].
  destruct (Pond.isChronological es) eqn:E; [|discriminate].
  intros [= <-]. now split.
Qed.

Lemma chronological_ordered (es : list Pond.TimeEvent) :
  forall t : Pond.seen,
    ordered_from (Pond.seen_time t) es ->
    Pond.chronological_from t true es = true.
Proof.
  induction es as [|e es' IH]; intros t; simpl; [reflexivity|].
  intros [Hlt Hrest].
  destruct (Pond.seen_falsy t).
  - now apply IH.
  - rewrite Hlt. now apply IH.
Qed.

Lemma date_lt_invalid (d : Pond.Date) : Pond.date_lt d None = false.
Proof. now destruct d. Qed.

Lemma newDate_mono (p q : Q) :
  (p <= q)%Q -> Pond.date_lt (Pond.newDate q) (Pond.newDate p) = false.
Proof.
  intros Hpq. unfold Pond.newDate.
  destruct (Qle_bool (Qabs q) _), (Qle_bool (Qabs p) _); simpl;
    try reflexivity.
  apply Z.ltb_ge. now apply Qtrunc_mono.
Qed.

(** ** The range of a series *)

Lemma range_fold_defined (es : list Pond.TimeEvent) :
  forall mn mx : Pond.Date,
  exists mn' mx' : Pond.Date,
    fold_left Pond.range_step es (Some mn, Some mx) = (Some mn', Some mx').
Proof.
  induction es as [|e es IH]; intros mn mx; simpl.
  - now exists mn, mx.
  - destruct (Pond.date_lt (Pond.timestamp e) mn),
             (Pond.date_lt mx (Pond.timestamp e)); apply IH.
Qed.

Lemma range_defined (s : Pond.TimeSeries) :
  Pond.events s <> [] -> exists r : Pond.TimeRange, Pond.range s = Some r.
Proof.
  unfold Pond.range. destruct (Pond.events s) as [|e es]; [congruence|].
  intros _. simpl.
  destruct (range_fold_defined es (Pond.timestamp e) (Pond.timestamp e))
    as (mn & mx & ->).
  now eexists.
Qed.

Lemma range_empty (s : Pond.TimeSeries) :
  Pond.events s = [] -> Pond.range s = None.
Proof. intros E. unfold Pond.range. now rewrite E. Qed.

Lemma range_fold_split (es : list Pond.TimeEvent) :
  forall acc : option Pond.Date * option Pond.Date,
    fold_left Pond.range_step es acc
    = (fold_left lo_step es acc.1, fold_left hi_step es acc.2).
Proof.
  induction es as [|e es IH]; intros [mn mx]; simpl; [reflexivity|].
  now rewrite IH.
Qed.

(** The lower extent is the initial one or a scanned timestamp, and bounds
    every valid timestamp from below. *)
Lemma lo_fold (es : list Pond.TimeEvent) :
  forall m : Pond.Date,
  exists m' : Pond.Date,
    fold_left lo_step es (Some m) = Some m' /\
    (m' = m \/ exists e, e ∈ es /\ Pond.timestamp e = m') /\
    (m = None -> m' = None) /\
    (forall b : Z, m' = Some b ->
       (forall b0, m = Some b0 -> b <= b0) /\
       forall e t, e ∈ es -> Pond.timestamp e = Some t -> b <= t).
Proof.
  induction es as [|e es IH]; intros m; simpl.
  - exists m. split; [reflexivity|]. split; [now left|]. split; [auto|].
    intros b Hb. split.
    + intros b0 H0. assert (b = b0) by congruence. lia.
    + intros e t He. now apply elem_of_nil in He.
  - unfold lo_step at 2. simpl.
    destruct (Pond.timestamp e) as [t|] eqn:Et, m as [b0|]; simpl.
    + destruct (t <? b0) eqn:E.
      * apply Z.ltb_lt in E.
        destruct (IH (Some t)) as (m' & Hf & Hat & Hnone & Hb).
        exists m'. split; [exact Hf|]. split; [|split; [discriminate|]].
        { right. destruct Hat as [->|(e' & He' & Ht')].
          - exists e. split; [left|exact Et].
          - exists e'. split; [now right|exact Ht']. }
        intros b Hm'. destruct (Hb b Hm') as [Hi Ha].
        specialize (Hi t eq_refl). split.
        { intros b1 [= <-]. lia. }
        intros e' t' He' Ht'. apply elem_of_cons in He' as [->|He'].
        { assert (t' = t) by congruence. lia. }
        now apply (Ha e' t').
      * apply Z.ltb_ge in E.
        destruct (IH (Some b0)) as (m' & Hf & Hat & Hnone & Hb).
        exists m'. split; [exact Hf|]. split; [|split; [discriminate|]].
        { destruct Hat as [->|(e' & He' & Ht')]; [now left|right].
          exists e'. split; [now right|exact Ht']. }
        intros b Hm'. destruct (Hb b Hm') as [Hi Ha].
        specialize (Hi b0 eq_refl). split.
        { intros b1 [= <-]. lia. }
        intros e' t' He' Ht'. apply elem_of_cons in He' as [->|He'].
        { assert (t' = t) by congruence. lia. }
        now apply (Ha e' t').
    + destruct (IH None) as (m' & Hf & Hat & Hnone & Hb).
      exists m'. split; [exact Hf|]. rewrite (Hnone eq_refl).
      split; [now left|]. split; [auto|]. discriminate.
    + destruct (IH (Some b0)) as (m' & Hf & Hat & Hnone & Hb).
      exists m'. split; [exact Hf|]. split; [|split; [discriminate|]].
      { destruct Hat as [->|(e' & He' & Ht')]; [now left|right].
        exists e'. split; [now right|exact Ht']. }
      intros b Hm'. destruct (Hb b Hm') as [Hi Ha].
      specialize (Hi b0 eq_refl). split.
      { intros b1 [= <-]. lia. }
      intros e' t' He' Ht'. apply elem_of_cons in He' as [->|He'].
      { congruence. }
      now apply (Ha e' t').
    + destruct (IH None) as (m' & Hf & Hat & Hnone & Hb).
      exists m'. split; [exact Hf|]. rewrite (Hnone eq_refl).
      split; [now left|]. split; [auto|]. discriminate.
Qed.

Lemma hi_fold (es : list Pond.TimeEvent) :
  forall m : Pond.Date,
  exists m' : Pond.Date,
    fold_left hi_step es (Some m) = Some m' /\
    (m' = m \/ exists e, e ∈ es /\ Pond.timestamp e = m') /\
    (m = None -> m' = None) /\
    (forall x : Z, m' = Some x ->
       (forall x0, m = Some x0 -> x0 <= x) /\
       forall e t, e ∈ es -> Pond.timestamp e = Some t -> t <= x).
Proof.
  induction es as [|e es IH]; intros m; simpl.
  - exists m. split; [reflexivity|]. split; [now left|]. split; [auto|].
    intros b Hb. split.
    + intros b0 H0. assert (b = b0) by congruence. lia.
    + intros e t He. now apply elem_of_nil in He.
  - unfold hi_step at 2. simpl.
    destruct m as [x0|], (Pond.timestamp e) as [t|] eqn:Et; simpl.
    + destruct (x0 <? t) eqn:E.
      * apply Z.ltb_lt in E.
        destruct (IH (Some t)) as (m' & Hf & Hat & Hnone & Hb).
        exists m'. split; [exact Hf|]. split; [|split; [discriminate|]].
        { right. destruct Hat as [->|(e' & He' & Ht')].
          - exists e. split; [left|exact Et].
          - exists e'. split; [now right|exact Ht']. }
        intros b Hm'. destruct (Hb b Hm') as [Hi Ha].
        specialize (Hi t eq_refl). split.
        { intros b1 [= <-]. lia. }
        intros e' t' He' Ht'. apply elem_of_cons in He' as [->|He'].
        { assert (t' = t) by congruence. lia. }
        now apply (Ha e' t').
      * apply Z.ltb_ge in E.
        destruct (IH (Some x0)) as (m' & Hf & Hat & Hnone & Hb).
        exists m'. split; [exact Hf|]. split; [|split; [discriminate|]].
        { destruct Hat as [->|(e' & He' & Ht')]; [now left|right].
          exists e'. split; [now right|exact Ht']. }
        intros b Hm'. destruct (Hb b Hm') as [Hi Ha].
        specialize (Hi x0 eq_refl). split.
        { intros b1 [= <-]. lia. }
        intros e' t' He' Ht'. apply elem_of_cons in He' as [->|He'].
        { assert (t' = t) by congruence. lia. }
        now apply (Ha e' t').
    + destruct (IH (Some x0)) as (m' & Hf & Hat & Hnone & Hb).
      exists m'. split; [exact Hf|]. split; [|split; [discriminate|]].
      { destruct Hat as [->|(e' & He' & Ht')]; [now left|right].
        exists e'. split; [now right|exact Ht']. }
      intros b Hm'. destruct (Hb b Hm') as [Hi Ha].
      specialize (Hi x0 eq_refl). split.
      { intros b1 [= <-]. lia. }
      intros e' t' He' Ht'. apply elem_of_cons in He' as [->|He'].
      { congruence. }
      now apply (Ha e' t').
    + destruct (IH None) as (m' & Hf & Hat & Hnone & Hb).
      exists m'. split; [exact Hf|]. rewrite (Hnone eq_refl).
      split; [now left|]. split; [auto|]. discriminate.
    + destruct (IH None) as (m' & Hf & Hat & Hnone & Hb).
      exists m'. split; [exact Hf|]. rewrite (Hnone eq_refl).
      split; [now left|]. split; [auto|]. discriminate.
Qed.

(** The range of a series: its extents are timestamps of the series and
    enclose every valid timestamp. *)
Lemma range_extents (s : Pond.TimeSeries) (r : Pond.TimeRange) :
  Pond.range s = Some r ->
  (exists e, e ∈ Pond.events s /\ Pond.timestamp e = Pond.begin r) /\
  (exists e, e ∈ Pond.events s /\ Pond.timestamp e = Pond.end_ r) /\
  forall e t, e ∈ Pond.events s -> Pond.timestamp e = Some t ->
    (forall b, Pond.begin r = Some b -> b <= t) /\
    (forall x, Pond.end_ r = Some x -> t <= x).
Proof.
  unfold Pond.range. rewrite range_fold_split. simpl.
  destruct (Pond.events s) as [|e0 es]; simpl; [discriminate|].
  unfold lo_step at 2, hi_step at 2. simpl.
  destruct (lo_fold es (Pond.timestamp e0)) as (lo & -> & Hlo & _ & Hlb).
  destruct (hi_fold es (Pond.timestamp e0)) as (hi & -> & Hhi & _ & Hub).
  intros [= <-]. simpl. split; [|split].
  - destruct Hlo as [->|(e & He & Ht)].
    + exists e0. split; [left|reflexivity].
    + exists e. split; [now right|exact Ht].
  - destruct Hhi as [->|(e & He & Ht)].
    + exists e0. split; [left|reflexivity].
    + exists e. split; [now right|exact Ht].
  - intros e t He Ht. split.
    + intros b Hb. destruct (Hlb b Hb) as [Hi Ha].
      apply elem_of_cons in He as [->|He]; [now apply Hi|now apply (Ha e t)].
    + intros x Hx. destruct (Hub x Hx) as [Hi Ha].
      apply elem_of_cons in He as [->|He]; [now apply Hi|now apply (Ha e t)].
Qed.

(** ** Runs of [updateValue] *)

Section Properties.

Context {Parent : Type}.
Variable parent__value : Parent -> raw.
Variable initialRange : Parent -> Pond.TimeRange.
Variable updateView : Parent -> Parent.

Context {DataObj : Type}.
Variable runTemplate : option string -> DataObj -> raw.

Lemma updateValue_run (parent : Parent) (dataObj : DataObj) (c : Model) :
  updateValue parent__value runTemplate parent dataObj c =
  let v := runTemplate (value (attrs c)) dataObj in
  match points_loop (parent__value parent) v 0 [] with
  | Throw e => (Throw e, set__value v c)
  | Ok points =>
      match Pond.newTimeSeries points with
      | Throw e => (Throw e, set__value v c)
      | Ok series =>
          match range_begin series with
          | Throw e => (Throw e, with_series v series c)
          | Ok b =>
              match range_end series with
              | Throw e => (Throw e, set__minTime b (with_series v series c))
              | Ok e =>
                  (Ok tt,
                   set__maxTime e (set__minTime b (with_series v series c)))
              end
          end
      end
  end.
Proof.
  unfold updateValue, bind, self, assign, lift. simpl.
  destruct (points_loop _ _ 0 []) as [points|]; [|reflexivity].
  destruct (Pond.newTimeSeries points) as [series|]; [|reflexivity].
  destruct (range_begin series) as [b|]; [|reflexivity].
  destruct (range_end series) as [e|]; reflexivity.
Qed.

Abbreviation updateValue := (updateValue parent__value runTemplate).
Abbreviation handleTrackerChanged := (handleTrackerChanged updateView).
Abbreviation trackers_changed := (trackers_changed updateView).
Abbreviation View := (HtxTimeSeriesChannelView initialRange).

(** A run that returns went through every step. *)
Lemma updateValue_returns (parent : Parent) (dataObj : DataObj)
    (c c' : Model) :
  updateValue parent dataObj c = (Ok tt, c') ->
  let v := runTemplate (value (attrs c)) dataObj in
  exists (points : list point) (series : Pond.TimeSeries)
         (r : Pond.TimeRange),
    points_loop (parent__value parent) v 0 [] = Ok points /\
    Pond.newTimeSeries points = Ok series /\
    Pond.range series = Some r /\
    c' = set__maxTime (Pond.end_ r)
           (set__minTime (Pond.begin r) (with_series v series c)).
Proof.
  rewrite updateValue_run. cbv zeta.
  destruct (points_loop _ _ 0 []) as [points|]; [|discriminate].
  destruct (Pond.newTimeSeries points) as [series|] eqn:Es; [|discriminate].
  unfold range_begin, range_end.
  destruct (Pond.range series) as [r|] eqn:Er; [|discriminate].
  intros [= <-]. exists points, series, r. auto.
Qed.


Lemma aggregate_nonempty (f : list scalar -> scalar)
    (column : option string) (s : Pond.TimeSeries) :
  Pond.events s <> [] ->
  Pond.aggregate f column s = f (map (Pond.get column) (Pond.events s)).
Proof.
  unfold Pond.aggregate. destruct (Pond.events s); [congruence|reflexivity].
Qed.

Lemma range_events (s : Pond.TimeSeries) (r : Pond.TimeRange) :
  Pond.range s = Some r -> Pond.events s <> [].
Proof. intros H E. apply range_empty in E. congruence. Qed.



(** C5.  After every run of [updateValue] the stored [_minTime] and
    [_maxTime] are the begin and the end of the range of the series just
    built; these are timestamps of the series and enclose every valid
    timestamp of it. *)
Theorem updateValue_time_bounds (parent : Parent) (dataObj : DataObj)
    (c c' : Model) :
  updateValue parent dataObj c = (Ok tt, c') ->
  exists (series : Pond.TimeSeries) (r : Pond.TimeRange),
    _series c' = Some series /\
    Pond.range series = Some r /\
    _minTime c' = Some (Pond.begin r) /\
    _maxTime c' = Some (Pond.end_ r) /\
    (exists e, e ∈ Pond.events series /\ Pond.timestamp e = Pond.begin r) /\
    (exists e, e ∈ Pond.events series /\ Pond.timestamp e = Pond.end_ r) /\
    forall e t, e ∈ Pond.events series -> Pond.timestamp e = Some t ->
      (forall b, Pond.begin r = Some b -> b <= t) /\
      (forall x, Pond.end_ r = Some x -> t <= x).
Proof.
  intros Hrun.
  apply updateValue_returns in Hrun as (points & s & r & _ & _ & Hr & ->).
  destruct (range_extents _ _ Hr) as (Hb & He & Hall).
  exists s, r. simpl.
  split; [reflexivity|]. split; [exact Hr|].
  split; [reflexivity|]. split; [reflexivity|].
  split; [exact Hb|]. split; [exact He|exact Hall].
Qed.

Lemma nondecreasing_take (qs : list Q) :
  forall (prev : Q) (k : nat),
    nondecreasing prev qs = true -> nondecreasing prev (take k qs) = true.
Proof.
  induction qs as [|q rest IH]; intros prev [|k]; simpl; auto.
  intros H. apply andb_prop in H as [H1 H2].
  now rewrite H1, IH.
Qed.

Lemma ordered_events (qs : list Q) :
  forall (vs : list scalar) (prev : Q),
    nondecreasing prev qs = true ->
    ordered_from (Pond.newDate prev) (map event_of (zip qs vs)).
Proof.
  induction qs as [|q rest IH]; intros [|v vs] prev; simpl; auto.
  intros H. apply andb_prop in H as [H1 H2]. split.
  - apply newDate_mono. now apply Qle_bool_iff.
  - now apply IH.
Qed.

(** C4 (as amended).  [updateValue] completes without raising whenever both
    raw values have a first column and the time column is not empty, holds
    only numbers, starts at zero or later and never decreases. *)
Theorem updateValue_total (parent : Parent) (dataObj : DataObj) (c : Model)
    (qs : list Q) (vals : list scalar) (cols cols' : list column) :
  parent__value parent = Value (Column (map Num qs) :: cols) ->
  runTemplate (value (attrs c)) dataObj = Value (Column vals :: cols') ->
  qs <> [] ->
  nondecreasing 0 qs = true ->
  exists c' : Model, updateValue parent dataObj c = (Ok tt, c').
Proof.
  intros Hp Hv Hne Hord.
  destruct qs as [|q0 rest]; [congruence|]. clear Hne.
  simpl in Hord. apply andb_prop in Hord as [H0 Hrest].
  rewrite updateValue_run. cbv zeta.
  rewrite Hp, Hv, points_loop_prefix.
  assert (exists k, run_length 0 (map Num (q0 :: rest)) = S k) as [k Hk].
  { cbn [map run_length].
    change (index_le 0 (Num q0)) with (Qle_bool 0 q0).
    rewrite H0. now eexists. }
  rewrite Hk. simpl take. rewrite firstn_map.
  unfold direct_points.
  change (Num q0 :: map Num (take k rest)) with (map Num (q0 :: take k rest)).
  unfold Pond.newTimeSeries. rewrite events_of_points_numbers.
  fold event_of. simpl.
  assert (Pond.isChronological
            (event_of (q0, sample_at vals 0)
             :: map event_of
                  (zip (take k rest)
                     (map (sample_at vals) (seq 1 (length (take k rest))))))
          = true) as ->.
  { apply chronological_ordered. simpl. split.
    - apply date_lt_invalid.
    - apply ordered_events. now apply nondecreasing_take. }
  set (s := Pond.mkTimeSeries _).
  destruct (range_defined s) as [r Hr]; [discriminate|].
  unfold range_begin, range_end. rewrite Hr. now eexists.
Qed.

(** C7.  [handleTrackerChanged(t)] stores [t] as the tracker, calls the
    parent's [updateView], and leaves every other field of the channel as
    it was. *)
Theorem handleTrackerChanged_frame (t : trackerpos) (c : Model)
    (parent : Parent) :
  let w := handleTrackerChanged t (c, parent) in
  tracker w.1 = t /\
  w.2 = updateView parent /\
  id w.1 = id c /\
  attrs w.1 = attrs c /\
  _value w.1 = _value c /\
  _series w.1 = _series c /\
  _avg w.1 = _avg c /\
  _max w.1 = _max c /\
  _min w.1 = _min c /\
  _minTime w.1 = _minTime c /\
  _maxTime w.1 = _maxTime c.
Proof. simpl. repeat split. Qed.

Lemma trackers_changed_derived (ts : list trackerpos) :
  forall w : Model * Parent,
    let w' := trackers_changed ts w in
    attrs w'.1 = attrs w.1 /\
    _value w'.1 = _value w.1 /\ _series w'.1 = _series w.1 /\
    _avg w'.1 = _avg w.1 /\ _max w'.1 = _max w.1 /\ _min w'.1 = _min w.1 /\
    _minTime w'.1 = _minTime w.1 /\ _maxTime w'.1 = _maxTime w.1.
Proof.
  induction ts as [|t ts IH]; intros w; simpl.
  - repeat split.
  - exact (IH (handleTrackerChanged t w)).
Qed.

Lemma create_derived_unset (guid : string) (snapshot : Snapshot)
    (c : Model) :
  create guid snapshot = Ok c -> derived_unset c /\ tracker c = TUndefined.
Proof.
  unfold create.
  destruct (attrs_of (preProcessSnapshot snapshot)) as [a|]; simpl;
    [|discriminate].
  intros [= <-]. unfold derived_unset. simpl. repeat split.
Qed.

(** C6.  A channel on which [updateValue] has never run (it was created
    from a snapshot and has only seen tracker changes) has all derived
    attributes unset, and the view renders nothing for it. *)
Theorem never_updated_renders_nothing (guid : string) (snapshot : Snapshot)
    (c : Model) (parent : Parent) (ts : list trackerpos) :
  create guid snapshot = Ok c ->
  let w := trackers_changed ts (c, parent) in
  derived_unset w.1 /\ View w.1 w.2 = Ok None.
Proof.
  intros Hc w.
  apply create_derived_unset in Hc as [(Hv & Hs & Ha & Hx & Hn & Hlo & Hhi) _].
  destruct (trackers_changed_derived ts (c, parent))
    as (_ & Hv' & Hs' & Ha' & Hx' & Hn' & Hlo' & Hhi').
  fold w in Hv', Hs', Ha', Hx', Hn', Hlo', Hhi'. simpl in *.
  split.
  - unfold derived_unset. repeat split; congruence.
  - unfold HtxTimeSeriesChannelView. now rewrite Hv', Hv.
Qed.

(** C10.  In every render the tracker position handed to the chart is the
    channel's tracker exactly when the [showtracker] flag is set and the
    value under the cursor is truthy; with a [null] value, or without a
    tracker, the chart gets [null] whatever the flag says. *)
Theorem tracker_marker_shown (item : Model) (parent : Parent)
    (r : Rendered) :
  View item parent = Ok (Some r) ->
  exists uval : scalar,
    getValue item (initialRange parent) = Ok uval /\
    trackerPosition r
    = (if showtracker (attrs item) && truthy uval then tracker item
       else TNull) /\
    (trackerPosition r <> TNull ->
     showtracker (attrs item) = true /\ truthy uval = true) /\
    (uval = Null \/ tracker item = TUndefined \/ tracker item = TNull ->
     trackerPosition r = TNull).
Proof.
  unfold HtxTimeSeriesChannelView.
  destruct (raw_falsy (_value item)); [discriminate|].
  destruct (getValue item (initialRange parent)) as [uval|] eqn:Eu; simpl;
    [|discriminate].
  destruct (_series item) as [s|]; [|discriminate].
  destruct (match tracker item with
            | TDate _ => Ok uval
            | _ => Ok Undefined
            end) as [u|] eqn:E2; simpl; [|destruct (tracker item); discriminate].
  replace (match tracker item with
           | TDate _ => getValue item (initialRange parent)
           | _ => Ok Undefined
           end) with (@Ok scalar u)
    by (rewrite <- E2, Eu; now destruct (tracker item)).
  simpl.
  destruct (range_end s) as [e|]; simpl; [|discriminate].
  destruct (range_begin s) as [b|]; simpl; [|discriminate].
  intros [= <-]. exists uval. simpl.
  split; [reflexivity|]. split; [reflexivity|]. split.
  - destruct (showtracker (attrs item)), (truthy uval); simpl; auto;
      intros H; congruence.
  - intros [-> | [Ht | Ht]].
    + simpl. now rewrite andb_false_r.
    + assert (uval = Undefined) as ->.
      { unfold getValue in Eu. rewrite Ht in Eu. congruence. }
      simpl. now rewrite andb_false_r.
    + rewrite Ht. now destruct (_ && _).
Qed.

End Properties.



Lemma run_length_short (ts : list scalar) :
  forall (i j : nat) (t : scalar),
    ts !! j = Some t -> index_le (i + j) t = false ->
    (run_length i ts <= j)%nat.
Proof.
  induction ts as [|u ts IH]; intros i j t Hj Hle; [discriminate|].
  simpl. destruct j as [|j]; simpl in Hj.
  - injection Hj as <-. rewrite Nat.add_0_r in Hle. now rewrite Hle.
  - destruct (index_le i u); [|lia].
    apply le_n_S. apply (IH (S i) j t Hj).
    now replace (S i + j)%nat with (i + S j)%nat by lia.
Qed.

(** A time value below its own index ends the loop there: the series gets
    fewer points than the raw array has samples. *)
Lemma points_loop_stops (times vals : list scalar)
    (cols cols' : list column) (j : nat) (t : scalar) :
  times !! j = Some t -> index_le j t = false ->
  exists points : list point,
    points_loop (Value (Column times :: cols)) (Value (Column vals :: cols'))
      0 [] = Ok points /\
    (length points <= j)%nat /\ (length points < length times)%nat.
Proof.
  intros Hj Hle. rewrite points_loop_prefix. eexists. split; [reflexivity|].
  unfold direct_points. rewrite pair_from_length, length_take.
  pose proof (run_length_short times 0 j t Hj Hle).
  pose proof (lookup_lt_Some _ _ _ Hj). lia.
Qed.

(** ** Snapshot preprocessing *)

(** C9 (as amended).  Preprocessing replaces the interpolation attribute by
    what [csMap] holds under that name.  A name that is neither a key of
    the map nor a member every object inherits is mapped to [undefined],
    and the model is then created with the default ["curveStep"]. *)
Theorem preProcessSnapshot_interpolation (guid : string)
    (snapshot : Snapshot) (s : string) :
  s_interpolation snapshot = PString s ->
  s_interpolation (preProcessSnapshot snapshot) = csMap_get s /\
  (forall v : string,
     csMap !! s = Some v ->
     s_interpolation (preProcessSnapshot snapshot) = PString v) /\
  (csMap !! s = None -> s ∉ object_prototype_names ->
   s_interpolation (preProcessSnapshot snapshot) = PUndefined /\
   exists c : Model,
     create guid snapshot = Ok c /\ interpolation (attrs c) = "curveStep").
Proof.
  intros Hs.
  assert (s_interpolation (preProcessSnapshot snapshot) = csMap_get s) as Hpre.
  { simpl. now rewrite Hs. }
  split; [exact Hpre|]. split.
  - intros v Hv. rewrite Hpre. unfold csMap_get. now rewrite Hv.
  - intros Hnone Hproto.
    assert (csMap_get s = PUndefined) as Hu.
    { unfold csMap_get. rewrite Hnone.
      now rewrite (bool_decide_eq_false_2 _ Hproto). }
    split; [now rewrite Hpre|].
    unfold create, attrs_of. rewrite Hpre, Hu. simpl.
    eexists. split; reflexivity.
Qed.

(** ** The value under the tracker *)

Lemma getValue_no_tracker (item : Model) (timerange : Pond.TimeRange) :
  tracker item = TUndefined \/ tracker item = TNull ->
  getValue item timerange = Ok Undefined.
Proof. unfold getValue. now intros [-> | ->]. Qed.

(** Once [bisect] has returned, the lookup cannot throw: a missing event
    gives [null]. *)
Lemma getValue_guarded (item : Model) (timerange : Pond.TimeRange)
    (t : Z) (series : Pond.TimeSeries) (i : option jsint) :
  tracker item = TDate t ->
  _series item = Some series ->
  Pond.bisect series (Some t)
    (floor (num_mul_size
              (num_div (num_sub (Some t) (Pond.begin timerange))
                 (num_sub (Pond.end_ timerange) (Pond.begin timerange)))
              (Pond.size series))) = Ok i ->
  getValue item timerange
  = Ok (match Pond.at_ series i with
        | Some ev => Pond.data ev
        | None => Null
        end).
Proof.
  intros Ht Hs Hb. unfold getValue, date_number. rewrite Ht, Hs, Hb. simpl.
  now destruct (Pond.at_ series i).
Qed.

Lemma at_in_range (s : Pond.TimeSeries) (i : Z) :
  0 <= i < Pond.size s ->
  exists e : Pond.TimeEvent, Pond.at_ s (Some (Int i)) = Some e.
Proof.
  intros [H0 H1]. unfold Pond.at_.
  replace (0 <? Pond.size s) with true by (symmetry; apply Z.ltb_lt; lia).
  replace (i <? 0) with false by (symmetry; apply Z.ltb_ge; lia).
  replace (0 <=? i) with true by (symmetry; apply Z.leb_le; lia).
  replace (i <? Pond.size s) with true by (symmetry; apply Z.ltb_lt; lia).
  simpl. apply lookup_lt_is_Some. unfold Pond.size in H1. lia.
Qed.

Lemma bisect_loop_returns (s : Pond.TimeSeries) (tms : Pond.Date) :
  forall (n : nat) (i : Z),
    0 <= i -> n = Z.to_nat (Pond.size s - i) ->
    exists r : option jsint, Pond.bisect_loop n s tms i = Ok r.
Proof.
  induction n as [|n IH]; intros i H0 Hn; simpl.
  - now eexists.
  - destruct (at_in_range s i) as [e ->]; [lia|].
    destruct (Pond.date_lt tms (Pond.timestamp e)); [now eexists|].
    destruct (Pond.date_eq (Pond.timestamp e) tms); [now eexists|].
    apply IH; lia.
Qed.

(** From a start position that is not negative, [bisect] returns. *)
Lemma bisect_returns (s : Pond.TimeSeries) (t : Pond.Date) (z : Z) :
  0 <= z -> exists r : option jsint, Pond.bisect s t (Int z) = Ok r.
Proof.
  intros Hz. unfold Pond.bisect.
  destruct (Pond.size s =? 0); [now eexists|].
  destruct z as [|p|p]; try lia; now apply bisect_loop_returns.
Qed.

(** With the tracker at or after the begin of a time range that is not
    empty, [getValue] returns. *)
Lemma getValue_returns_from_begin (item : Model) (t b e : Z)
    (series : Pond.TimeSeries) :
  tracker item = TDate t ->
  _series item = Some series ->
  b <= t -> b < e ->
  exists v : scalar,
    getValue item (Pond.mkTimeRange (Some b) (Some e)) = Ok v.
Proof.
  intros Ht Hs Hbt Hbe. unfold getValue. rewrite Ht, Hs.
  cbn [Pond.begin Pond.end_ date_number num_sub num_div].
  replace (e - b =? 0) with false by (symmetry; apply Z.eqb_neq; lia).
  cbn [num_mul_size floor].
  set (q := (inject_Z (t - b) / inject_Z (e - b)
             * inject_Z (Pond.size series))%Q).
  assert (0 <= Qfloor q) as Hq.
  { change 0 with (Qfloor 0). apply Qfloor_resp_le. unfold q.
    apply Qmult_le_0_compat.
    - apply Qmult_le_0_compat.
      + change 0%Q with (inject_Z 0). rewrite <- Zle_Qle. lia.
      + apply Qinv_le_0_compat.
        change 0%Q with (inject_Z 0). rewrite <- Zle_Qle. lia.
    - change 0%Q with (inject_Z 0). rewrite <- Zle_Qle.
      unfold Pond.size. lia. }
  destruct (bisect_returns series (Some t) (Qfloor q) Hq) as [i ->].
  cbn [rbind].
  destruct (Pond.at_ series i); now eexists.
Qed.

Example create_fresh_channel :
  create "channel-1" (sensor_snapshot PUndefined) = Ok fresh_channel.
Proof. reflexivity. Qed.

(** With the tracker more than one range length before the begin of the
    time range, [bisect] is started below [-size] and raises: the lookup
    guard of [getValue] is never reached. *)
Lemma getValue_throws_far_before (item : Model) (t b e : Z)
    (series : Pond.TimeSeries) :
  tracker item = TDate t ->
  _series item = Some series ->
  Pond.events series <> [] ->
  b < e -> t - b < - (e - b) ->
  threw (getValue item (Pond.mkTimeRange (Some b) (Some e))).
Proof.
  intros Ht Hs Hne Hbe Hfar. unfold getValue. rewrite Ht, Hs.
  cbn [Pond.begin Pond.end_ date_number num_sub num_div].
  replace (e - b =? 0) with false by (symmetry; apply Z.eqb_neq; lia).
  cbn [num_mul_size floor].
  set (n := Pond.size series).
  assert (0 < n) as Hn.
  { unfold n, Pond.size. destruct (Pond.events series); [congruence|].
    simpl. lia. }
  set (q := (inject_Z (t - b) / inject_Z (e - b) * inject_Z n)%Q).
  assert (Qfloor q < - n) as Hq.
  { rewrite Zlt_Qlt. apply Qle_lt_trans with q; [apply Qfloor_le|].
    unfold q. apply Qlt_le_trans with ((-1) * inject_Z n)%Q.
    - apply Qmult_lt_compat_r.
      + change 0%Q with (inject_Z 0). rewrite <- Zlt_Qlt. lia.
      + apply Qlt_shift_div_r.
        * change 0%Q with (inject_Z 0). rewrite <- Zlt_Qlt. lia.
        * unfold Qlt. simpl. lia.
    - unfold Qle. simpl. lia. }
  unfold Pond.bisect. fold n.
  replace (n =? 0) with false by (symmetry; apply Z.eqb_neq; lia).
  destruct (Qfloor q) as [|p|p] eqn:Eq; try lia.
  destruct (Z.to_nat (n - Z.neg p)) as [|k] eqn:Ek; [lia|].
  cbn [Pond.bisect_loop].
  assert (Pond.at_ series (Some (Int (Z.neg p))) = None) as ->.
  { unfold Pond.at_. fold n.
    replace (0 <? n) with true by (symmetry; apply Z.ltb_lt; lia).
    replace (Z.neg p <? 0) with true by (symmetry; apply Z.ltb_lt; lia).
    replace (0 <=? n + Z.neg p) with false
      by (symmetry; apply Z.leb_gt; lia).
    reflexivity. }
  exact I.
Qed.

(** ** Concrete runs *)



(** C2.  For a time column sampled twice per time unit the loop stops at
    index 1, where the time value 1/2 is below the index: the series keeps
    one point of the four samples, and the stored maximum is that of the
    first sample only. *)
Theorem updateValue_stops_early :
  exists (c' : Model) (series : Pond.TimeSeries),
    run_on [0; 1 # 2; 1; 3 # 2]%Q [20; 21; 22; 23]%Q = (Ok tt, c') /\
    _series c' = Some series /\
    length (Pond.events series) = 1%nat /\
    length (direct_points (map Num [0; 1 # 2; 1; 3 # 2]%Q)
              (map Num [20; 21; 22; 23]%Q)) = 4%nat /\
    _max c' = Num 20.
Proof.
  eexists. eexists. split; [vm_compute; reflexivity|].
  split; [reflexivity|]. split; [reflexivity|]. split; reflexivity.
Qed.



Lemma updateValue_time_bounds_witness :
  exists c' : Model,
    run_on [10; 20]%Q [1; 2]%Q = (Ok tt, c') /\
    exists (series : Pond.TimeSeries) (r : Pond.TimeRange),
      _series c' = Some series /\
      Pond.range series = Some r /\
      _minTime c' = Some (Pond.begin r) /\
      _maxTime c' = Some (Pond.end_ r) /\
      (exists e, e ∈ Pond.events series /\ Pond.timestamp e = Pond.begin r) /\
      (exists e, e ∈ Pond.events series /\ Pond.timestamp e = Pond.end_ r) /\
      forall e t, e ∈ Pond.events series -> Pond.timestamp e = Some t ->
        (forall b, Pond.begin r = Some b -> b <= t) /\
        (forall x, Pond.end_ r = Some x -> t <= x).
Proof.
  eexists. split; [vm_compute; reflexivity|].
  apply (updateValue_time_bounds c__value task_value
           (container_of (Value [Column (map Num [10; 20]%Q)]) 0 100)
           (Value [Column (map Num [1; 2]%Q)]) fresh_channel).
  vm_compute. reflexivity.
Defined.

Lemma updateValue_total_witness :
  [10; 20]%Q <> [] /\ nondecreasing 0 [10; 20]%Q = true /\
  exists c' : Model, run_on [10; 20]%Q [1; 2]%Q = (Ok tt, c').
Proof.
  split; [discriminate|]. split; [reflexivity|].
  apply (updateValue_total c__value task_value
           (container_of (Value [Column (map Num [10; 20]%Q)]) 0 100)
           (Value [Column (map Num [1; 2]%Q)]) fresh_channel
           [10; 20]%Q (map Num [1; 2]%Q) [] []);
    [reflexivity | reflexivity | discriminate | reflexivity].
Defined.

(** [updateValue] raises a TypeError on an empty time column, on an empty
    raw value of the container, and on a container without a raw value. *)
Lemma updateValue_raises_on_empty :
  (run_on []%Q [1; 2]%Q).1 = Throw TypeError /\
  (updateValue c__value task_value (container_of (Value []) 0 100)
     (Value [Column (map Num [1; 2]%Q)]) fresh_channel).1 = Throw TypeError /\
  (updateValue c__value task_value (container_of NoValue 0 100)
     (Value [Column (map Num [1; 2]%Q)]) fresh_channel).1 = Throw TypeError.
Proof. repeat split; vm_compute; reflexivity. Qed.

Example getValue_inside_and_after :
  getValue (tracked_channel 1500).1 (c_initialRange (tracked_channel 1500).2)
  = Ok (Num 2) /\
  getValue (tracked_channel 2500).1 (c_initialRange (tracked_channel 2500).2)
  = Ok Null /\
  getValue (tracked_channel 500).1 (c_initialRange (tracked_channel 500).2)
  = Ok (Num 1).
Proof. repeat split; vm_compute; reflexivity. Qed.

(** C3.  With the tracker more than one range length before the begin of
    the time range, the start position handed to [bisect] is below
    [-size]; [bisect] reads a missing event outside the [try], so
    [getValue] throws and with it the render. *)
Theorem getValue_throws_before_range :
  let w := tracked_channel (-50) in
  threw (getValue w.1 (c_initialRange w.2)) /\
  threw (HtxTimeSeriesChannelView c_initialRange w.1 w.2).
Proof. split; vm_compute; exact I. Qed.

Lemma never_updated_renders_nothing_witness :
  create "channel-1" (sensor_snapshot PUndefined) = Ok fresh_channel /\
  let w := trackers_changed c_updateView [TDate 5; TNull]
             (fresh_channel, container_of NoValue 0 100) in
  derived_unset w.1 /\
  HtxTimeSeriesChannelView c_initialRange w.1 w.2 = Ok None.
Proof.
  split; [reflexivity|].
  apply (never_updated_renders_nothing c_initialRange c_updateView
           "channel-1" (sensor_snapshot PUndefined)).
  reflexivity.
Defined.

Lemma curveStep_not_inherited : "curveStep" ∉ object_prototype_names.
Proof.
  intros H. unfold object_prototype_names in H.
  repeat (apply elem_of_cons in H as [H|H]; [discriminate|]).
  now apply elem_of_nil in H.
Qed.

Lemma preProcessSnapshot_interpolation_witness :
  s_interpolation (sensor_snapshot (PString "curveStep"))
  = PString "curveStep" /\
  csMap !! "curveStep" = None /\
  s_interpolation (preProcessSnapshot (sensor_snapshot (PString "curveStep")))
  = PUndefined /\
  exists c : Model,
    create "channel-1" (sensor_snapshot (PString "curveStep")) = Ok c /\
    interpolation (attrs c) = "curveStep".
Proof.
  split; [reflexivity|].
  assert (csMap !! "curveStep" = None) as Hnone by (vm_compute; reflexivity).
  split; [exact Hnone|].
  exact (proj2 (proj2 (preProcessSnapshot_interpolation "channel-1"
                         (sensor_snapshot (PString "curveStep")) "curveStep"
                         eq_refl))
           Hnone curveStep_not_inherited).
Defined.

(** The name [toString] is not a key of [csMap], yet reading it from the
    map gives the inherited method: the attribute is not mapped to
    [undefined] and no channel is created from the snapshot. *)
Lemma toString_not_defaulted :
  csMap !! "toString" = None /\
  s_interpolation (preProcessSnapshot (sensor_snapshot (PString "toString")))
  <> PUndefined /\
  ~ (exists c : Model,
       create "channel-1" (sensor_snapshot (PString "toString")) = Ok c).
Proof.
  split; [vm_compute; reflexivity|]. split.
  - vm_compute. discriminate.
  - intros [c Hc]. vm_compute in Hc. discriminate.
Qed.

Lemma tracker_marker_shown_witness :
  let w := tracked_channel 1500 in
  exists r : Rendered,
    HtxTimeSeriesChannelView c_initialRange w.1 w.2 = Ok (Some r) /\
    exists uval : scalar,
      getValue w.1 (c_initialRange w.2) = Ok uval /\
      trackerPosition r
      = (if showtracker (attrs w.1) && truthy uval then tracker w.1
         else TNull) /\
      (trackerPosition r <> TNull ->
       showtracker (attrs w.1) = true /\ truthy uval = true) /\
      (uval = Null \/ tracker w.1 = TUndefined \/ tracker w.1 = TNull ->
       trackerPosition r = TNull).
Proof.
  intros w. eexists. split; [vm_compute; reflexivity|].
  apply (tracker_marker_shown c_initialRange w.1 w.2).
  vm_compute. reflexivity.
Defined.

(** ** Further properties of the actions *)

Lemma range_none_empty (s : Pond.TimeSeries) :
  Pond.range s = None -> s = Pond.mkTimeSeries [].
Proof.
  intros H. destruct s as [es]. destruct es as [|e es]; [reflexivity|].
  destruct (range_defined (Pond.mkTimeSeries (e :: es))) as [r Hr];
    [discriminate|congruence].
Qed.

Lemma read_guard_in_range (v : raw) (i : nat) (t : scalar) :
  read v i = Ok t -> index_le i t = true -> (i < column_length v)%nat.
Proof.
  unfold read, raw_first, column_length.
  destruct v as [|[|[|xs] cols]]; simpl; try discriminate.
  intros [= <-] Hle.
  destruct (xs !! i) eqn:E; [|discriminate].
  exact (lookup_lt_Some _ _ _ E).
Qed.

(** Whatever the raw values are, the loop only adds points whose time value
    passed the test against their index, and it reads the value column as
    soon as it adds one. *)
Lemma points_loop_guard (pv cv : raw) :
  forall (n i : nat) (acc points : list point),
    (column_length pv - i <= n)%nat ->
    points_loop pv cv i acc = Ok points ->
    exists new : list point,
      points = acc ++ new /\
      (new <> [] -> exists v, read cv i = Ok v) /\
      forall (j : nat) (p : point),
        new !! j = Some p -> index_le (i + j) p.1 = true.
Proof.
  induction n as [|n IH]; intros i acc points Hn; rewrite points_loop_step.
  - destruct (read pv i) as [t|] eqn:Et; [|discriminate].
    destruct (index_le i t) eqn:Hle.
    + pose proof (read_guard_in_range _ _ _ Et Hle). lia.
    + intros [= <-]. exists []. rewrite app_nil_r.
      split; [reflexivity|]. split; [congruence|]. intros j p Hj. discriminate.
  - destruct (read pv i) as [t|] eqn:Et; [|discriminate].
    destruct (index_le i t) eqn:Hle.
    + destruct (read cv i) as [v|] eqn:Ev; [|discriminate].
      intros Hloop. apply IH in Hloop as (new & -> & _ & Hnew); [|lia].
      exists ((t, v) :: new). rewrite <- app_assoc. split; [reflexivity|].
      split; [now eexists|].
      intros [|j] p Hj; simpl in Hj.
      * injection Hj as <-. simpl. now rewrite Nat.add_0_r.
      * replace (i + S j)%nat with (S i + j)%nat by lia. now apply Hnew.
    + intros [= <-]. exists []. rewrite app_nil_r.
      split; [reflexivity|]. split; [congruence|]. intros j p Hj. discriminate.
Qed.

Lemma points_loop_points (pv cv : raw) (points : list point) :
  points_loop pv cv 0 [] = Ok points ->
  (points <> [] -> raw_falsy cv = false) /\
  forall (j : nat) (p : point),
    points !! j = Some p -> index_le j p.1 = true.
Proof.
  intros H.
  apply (points_loop_guard pv cv (column_length pv) 0 [] points) in H
    as (new & -> & Hread & Hnew); [|lia].
  simpl. split; [|exact Hnew].
  intros Hne. destruct (Hread Hne) as [v Hv].
  destruct cv; [discriminate|reflexivity].
Qed.

Section Behaviour.

Context {Parent : Type}.
Variable parent__value : Parent -> raw.
Variable initialRange : Parent -> Pond.TimeRange.
Variable updateView : Parent -> Parent.
Variable format : string -> option (scalar -> string).

Context {DataObj : Type}.
Variable runTemplate : option string -> DataObj -> raw.

Abbreviation run := (updateValue parent__value runTemplate).
Abbreviation run_eq := (updateValue_run parent__value runTemplate).
Abbreviation run_returns := (updateValue_returns parent__value runTemplate).
Abbreviation render := (HtxTimeSeriesChannelView initialRange).
Abbreviation render_summary :=
  (HtxTimeSeriesChannelView_summary initialRange format).

(** X1.  Whether it returns or raises, [updateValue] leaves the id, the tag
    attributes and the tracker of the channel as they were. *)
Theorem updateValue_keeps_attributes (parent : Parent) (dataObj : DataObj)
    (c c' : Model) (r : result unit) :
  run parent dataObj c = (r, c') ->
  id c' = id c /\ attrs c' = attrs c /\ tracker c' = tracker c.
Proof.
  rewrite run_eq. cbv zeta.
  destruct (points_loop _ _ 0 []) as [points|];
    [|intros [= <- <-]; now repeat split].
  destruct (Pond.newTimeSeries points) as [series|];
    [|intros [= <- <-]; now repeat split].
  destruct (range_begin series) as [b|];
    [|intros [= <- <-]; now repeat split].
  destruct (range_end series) as [e|]; intros [= <- <-]; now repeat split.
Qed.

(** X2.  [updateValue] is idempotent: a second run over the same container
    and task data returns too and leaves the channel exactly as the first
    run left it. *)
Theorem updateValue_idempotent (parent : Parent) (dataObj : DataObj)
    (c c' : Model) :
  run parent dataObj c = (Ok tt, c') ->
  run parent dataObj c' = (Ok tt, c').
Proof.
  intros H. apply run_returns in H as (points & s & r & Hl & Hs & Hr & ->).
  rewrite run_eq. cbv zeta. cbn [attrs set__maxTime set__minTime with_series
    set__series set__min set__max set__avg set__value].
  rewrite Hl, Hs. unfold range_begin, range_end. rewrite Hr.
  destruct c. reflexivity.
Qed.

(** X3.  A run of [updateValue] that raises has still replaced [_value] by
    the template result and has not touched the time bounds.  Either it
    raised before the series was built, and then the series and the
    statistics are the old ones; or it raised a TypeError on the range of
    an empty series, and then the empty series is stored and the three
    statistics are NaN. *)
Theorem updateValue_failure (parent : Parent) (dataObj : DataObj)
    (c c' : Model) (e : exn) :
  run parent dataObj c = (Throw e, c') ->
  _value c' = runTemplate (value (attrs c)) dataObj /\
  _minTime c' = _minTime c /\ _maxTime c' = _maxTime c /\
  ((_series c' = _series c /\
    _avg c' = _avg c /\ _max c' = _max c /\ _min c' = _min c) \/
   (e = TypeError /\ _series c' = Some (Pond.mkTimeSeries []) /\
    _avg c' = NaN /\ _max c' = NaN /\ _min c' = NaN)).
Proof.
  rewrite run_eq. cbv zeta.
  destruct (points_loop _ _ 0 []) as [points|];
    [|intros [= <- <-]; simpl; auto 10].
  destruct (Pond.newTimeSeries points) as [series|];
    [|intros [= <- <-]; simpl; auto 10].
  unfold range_begin, range_end.
  destruct (Pond.range series) as [r|] eqn:Er; [discriminate|].
  intros [= <- <-]. apply range_none_empty in Er. subst series. simpl.
  repeat split; auto. right. repeat split; reflexivity.
Qed.

(** X4.  The run does not look at the tracker: moving the tracker before an
    update gives the same outcome as moving it afterwards. *)
Theorem updateValue_ignores_tracker (parent : Parent) (dataObj : DataObj)
    (c : Model) (t : trackerpos) :
  run parent dataObj (set_tracker t c)
  = ((run parent dataObj c).1, set_tracker t (run parent dataObj c).2).
Proof.
  rewrite !run_eq. cbv zeta. cbn [attrs set_tracker].
  destruct (points_loop _ _ 0 []) as [points|]; [|reflexivity].
  destruct (Pond.newTimeSeries points) as [series|]; [|reflexivity].
  destruct (range_begin series) as [b|]; [|reflexivity].
  destruct (range_end series) as [e|]; reflexivity.
Qed.

(** X5.  When the time column is empty or starts with a negative time, the
    loop adds no point, whatever the channel's own raw value is: the series
    is empty, the statistics are NaN and the run raises a TypeError on the
    range. *)
Theorem updateValue_raises_on_negative_start (parent : Parent)
    (dataObj : DataObj) (c : Model) (times : list scalar)
    (cols : list column) :
  parent__value parent = Value (Column times :: cols) ->
  times = [] \/ (exists q : Q, times !! 0%nat = Some (Num q) /\ (q < 0)%Q) ->
  exists c' : Model,
    run parent dataObj c = (Throw TypeError, c') /\
    _series c' = Some (Pond.mkTimeSeries []) /\
    _avg c' = NaN /\ _max c' = NaN /\ _min c' = NaN.
Proof.
  intros Hp Hstart. rewrite run_eq. cbv zeta.
  rewrite Hp, points_loop_step, read_column.
  assert (index_le 0 (sample_at times 0) = false) as ->.
  { destruct Hstart as [->|(q & Hq & Hneg)]; [reflexivity|].
    unfold sample_at. rewrite Hq.
    change (index_le 0 (default Undefined (Some (Num q))))
      with (Qle_bool 0 q).
    destruct (Qle_bool 0 q) eqn:E; [|reflexivity].
    apply Qle_bool_iff in E. exfalso. exact (Qlt_not_le _ _ Hneg E). }
  simpl. eexists. repeat split.
Qed.

Lemma render_after_update (parent parent' : Parent)
    (dataObj : DataObj) (c c' : Model) :
  run parent dataObj c = (Ok tt, c') ->
  tracker c = TUndefined \/ tracker c = TNull ->
  exists r : Rendered,
    render c' parent' = Ok (Some r) /\
    trackerPosition r = TNull /\
    Some (chart_minTime r) = _minTime c' /\
    Some (chart_maxTime r) = _maxTime c' /\
    labelAxis_min r = _min c' /\ labelAxis_max r = _max c' /\
    summary r = (_max c', _avg c', _min c').
Proof.
  intros H Ht. apply run_returns in H as (points & s & r & Hl & Hs & Hr & ->).
  pose proof (range_events _ _ Hr) as Hne.
  apply newTimeSeries_inv in Hs as [Hev _].
  apply events_of_points_length in Hev.
  apply points_loop_points in Hl as [Hcv _].
  assert (raw_falsy (runTemplate (value (attrs c)) dataObj) = false) as Hv.
  { apply Hcv. intros ->. destruct (Pond.events s); [congruence|discriminate]. }
  unfold HtxTimeSeriesChannelView, getValue.
  cbn [_value _series tracker attrs set__maxTime set__minTime with_series
       set__series set__min set__max set__avg set__value].
  rewrite Hv. unfold range_begin, range_end. rewrite Hr.
  destruct Ht as [-> | ->]; simpl; rewrite andb_false_r;
    eexists; repeat split.
Qed.

(** X6.  After a run that returned, a channel without a tracker renders
    when d3-format accepts its [unitsformat]: the view gives the chart the
    stored time bounds and statistics, the three statistics formatted as
    summary, and no tracker position.  When the specifier is refused the
    render raises. *)
Theorem updated_channel_renders (parent parent' : Parent)
    (dataObj : DataObj) (c c' : Model) :
  run parent dataObj c = (Ok tt, c') ->
  tracker c = TUndefined \/ tracker c = TNull ->
  match format (unitsformat (attrs c)) with
  | Some formatFn =>
      exists r : Rendered,
        render_summary c' parent' =
          Ok (Some (r, [("Max", formatFn (_max c'));
                        ("Avg", formatFn (_avg c'));
                        ("Min", formatFn (_min c'))])) /\
        trackerPosition r = TNull /\
        Some (chart_minTime r) = _minTime c' /\
        Some (chart_maxTime r) = _maxTime c' /\
        labelAxis_min r = _min c' /\ labelAxis_max r = _max c'
  | None => threw (render_summary c' parent')
  end.
Proof.
  intros H Ht.
  destruct (render_after_update parent parent' dataObj c c' H Ht)
    as (r & Hr & Hpos & Hmin & Hmax & Hlo & Hhi & _).
  assert (raw_falsy (_value c') = false) as Hv.
  { destruct (raw_falsy (_value c')) eqn:E; [|reflexivity].
    unfold HtxTimeSeriesChannelView in Hr. rewrite E in Hr. discriminate. }
  assert (attrs c' = attrs c /\ tracker c' = tracker c) as [Ha Htr].
  { apply run_returns in H as (points & s & r' & _ & _ & _ & ->).
    split; reflexivity. }
  unfold HtxTimeSeriesChannelView_summary. rewrite Hv, Ha.
  assert (getValue c' (initialRange parent') = Ok Undefined) as ->.
  { unfold getValue. rewrite Htr. destruct Ht as [-> | ->]; reflexivity. }
  cbn [rbind].
  destruct (format (unitsformat (attrs c))) as [formatFn|]; [|exact I].
  rewrite Hr. cbn [rbind option_map]. exists r. auto 10.
Qed.

(** X7.  When the first run on a channel raises although the template gave
    a value, the channel is left half updated and every later render
    raises instead of showing nothing. *)
Theorem failed_update_breaks_render (parent parent' : Parent)
    (dataObj : DataObj) (c c' : Model) (e : exn) :
  _series c = None ->
  raw_falsy (runTemplate (value (attrs c)) dataObj) = false ->
  run parent dataObj c = (Throw e, c') ->
  threw (render c' parent').
Proof.
  intros Hnone Hv. rewrite run_eq. cbv zeta.
  assert (forall m : Model,
            _series m = None ->
            raw_falsy (_value m) = false ->
            threw (render m parent')) as Hearly.
  { intros m Hs Hval. unfold HtxTimeSeriesChannelView, getValue.
    rewrite Hval, Hs. destruct (tracker m); exact I. }
  destruct (points_loop _ _ 0 []) as [points|];
    [|intros [= <- <-]; now apply Hearly].
  destruct (Pond.newTimeSeries points) as [series|];
    [|intros [= <- <-]; now apply Hearly].
  unfold range_begin, range_end.
  destruct (Pond.range series) as [r|] eqn:Er; [discriminate|].
  intros [= <- <-]. apply range_none_empty in Er. subst series.
  unfold HtxTimeSeriesChannelView, getValue.
  cbn [_value _series tracker attrs with_series
       set__series set__min set__max set__avg set__value].
  rewrite Hv. destruct (tracker c); exact I.
Qed.

End Behaviour.

(** ** The series a run stores *)

Lemma events_of_points_lookup (points : list point) :
  forall (es : list Pond.TimeEvent),
    Pond.events_of_points points = Ok es ->
    forall (j : nat) (e : Pond.TimeEvent),
      es !! j = Some e ->
      exists p : point,
        points !! j = Some p /\
        Pond.timestampFromArg p.1 = Ok (Pond.timestamp e) /\
        Pond.data e = p.2.
Proof.
  induction points as [|[t v] rest IH]; intros es; simpl.
  - intros [= <-] j e Hj. discriminate.
  - destruct (Pond.timestampFromArg t) as [d|] eqn:Ed; simpl; [|discriminate].
    destruct (Pond.events_of_points rest) as [es'|]; simpl; [|discriminate].
    intros [= <-] [|j] e Hj; simpl in Hj.
    + injection Hj as <-. exists (t, v). simpl. auto.
    + destruct (IH es' eq_refl j e Hj) as (p & Hp & Hts & Hd).
      exists p. auto.
Qed.

(** A time value that passed the loop test at index [j] and became a valid
    date is at least [j]. *)
Lemma guarded_timestamp (j : nat) (t : scalar) (d : Pond.Date) (z : Z) :
  index_le j t = true -> Pond.timestampFromArg t = Ok d -> d = Some z ->
  Z.of_nat j <= z.
Proof.
  destruct t as [| | |q]; simpl; try discriminate.
  unfold index_le. simpl. intros Hle [= <-]. unfold Pond.newDate.
  destruct (Qle_bool (Qabs q) _); [|discriminate]. intros [= <-].
  rewrite <- (Qtrunc_inject (Z.of_nat j)). apply Qtrunc_mono.
  now apply Qle_bool_iff.
Qed.

Lemma chronological_from_false (es : list Pond.TimeEvent) :
  forall t : Pond.seen, Pond.chronological_from t false es = false.
Proof.
  induction es as [|e es IH]; intros t; simpl; [reflexivity|].
  destruct (Pond.seen_falsy t); [apply IH|].
  destruct (Pond.date_lt _ _); apply IH.
Qed.

(** What the chronology check of the constructor establishes: an event is
    not earlier than its predecessor, unless the predecessor's time is zero
    or invalid, in which case the two are not compared. *)
Lemma chronological_adjacent (es : list Pond.TimeEvent) :
  forall st : Pond.seen,
    Pond.chronological_from st true es = true ->
    (forall e, es !! 0%nat = Some e -> Pond.seen_falsy st = false ->
               Pond.date_lt (Pond.timestamp e) (Pond.seen_time st) = false) /\
    forall (i : nat) (e1 e2 : Pond.TimeEvent),
      es !! i = Some e1 -> es !! S i = Some e2 ->
      Pond.date_lt (Pond.timestamp e2) (Pond.timestamp e1) = false \/
      Pond.timestamp e1 = None \/ Pond.timestamp e1 = Some 0.
Proof.
  induction es as [|e es IH]; intros st; simpl.
  - intros _. split; intros; discriminate.
  - destruct (Pond.seen_falsy st) eqn:Ef.
    + intros H. destruct (IH _ H) as [Hhead Hadj]. split.
      * intros e0 _ Hc. discriminate.
      * intros [|i] e1 e2 H1 H2; simpl in H1, H2.
        -- injection H1 as <-.
           destruct (Pond.timestamp e) as [z|] eqn:Ez; [|auto].
           destruct (Z.eq_dec z 0) as [->|Hz]; [auto|].
           left. apply (Hhead e2 H2). simpl. now apply Z.eqb_neq.
        -- now apply (Hadj i).
    + destruct (Pond.date_lt (Pond.timestamp e) (Pond.seen_time st)) eqn:El.
      * now rewrite chronological_from_false.
      * intros H. destruct (IH _ H) as [Hhead Hadj]. split.
        -- now intros e0 [= <-] _.
        -- intros [|i] e1 e2 H1 H2; simpl in H1, H2.
           ++ injection H1 as <-. left. now apply (Hhead e2 H2).
           ++ now apply (Hadj i).
Qed.

Section Series.

Context {Parent : Type}.
Variable parent__value : Parent -> raw.

Context {DataObj : Type}.
Variable runTemplate : option string -> DataObj -> raw.

Abbreviation run' := (updateValue parent__value runTemplate).

(** The events of the series of a run that returned: each has a time value
    that passed the loop test at its position. *)
Lemma run_times_guarded (parent : Parent) (dataObj : DataObj)
    (c c' : Model) (s : Pond.TimeSeries) :
  run' parent dataObj c = (Ok tt, c') ->
  _series c' = Some s ->
  Pond.isChronological (Pond.events s) = true /\
  forall (i : nat) (e : Pond.TimeEvent) (t : Z),
    Pond.events s !! i = Some e -> Pond.timestamp e = Some t ->
    Z.of_nat i <= t.
Proof.
  intros H Hser.
  apply (updateValue_returns parent__value runTemplate) in H
    as (points & s' & r & Hl & Hs & Hr & ->).
  simpl in Hser. injection Hser as ->.
  apply newTimeSeries_inv in Hs as [Hev Hchr]. split; [exact Hchr|].
  apply points_loop_points in Hl as [_ Hguard].
  intros i e t Hi Ht.
  destruct (events_of_points_lookup _ _ Hev i e Hi) as (p & Hp & Hts & _).
  exact (guarded_timestamp i p.1 _ t (Hguard i p Hp) Hts Ht).
Qed.

(** X8.  In the series a run stores, the event at position [i] has a time of
    at least [i] milliseconds: no stored series holds a negative time. *)
Theorem series_times_at_least_index (parent : Parent) (dataObj : DataObj)
    (c c' : Model) (s : Pond.TimeSeries) (i : nat) (e : Pond.TimeEvent)
    (t : Z) :
  run' parent dataObj c = (Ok tt, c') ->
  _series c' = Some s ->
  Pond.events s !! i = Some e -> Pond.timestamp e = Some t ->
  Z.of_nat i <= t /\ 0 <= t.
Proof.
  intros H Hs Hi Ht.
  destruct (run_times_guarded _ _ _ _ _ H Hs) as [_ Hg].
  specialize (Hg i e t Hi Ht). lia.
Qed.

(** X9.  The series a run stores is in time order: of two neighbouring
    events with valid dates the later one never has the smaller time. *)
Theorem series_in_time_order (parent : Parent) (dataObj : DataObj)
    (c c' : Model) (s : Pond.TimeSeries) (i : nat)
    (e1 e2 : Pond.TimeEvent) (t1 t2 : Z) :
  run' parent dataObj c = (Ok tt, c') ->
  _series c' = Some s ->
  Pond.events s !! i = Some e1 -> Pond.events s !! S i = Some e2 ->
  Pond.timestamp e1 = Some t1 -> Pond.timestamp e2 = Some t2 ->
  t1 <= t2.
Proof.
  intros H Hs H1 H2 Ht1 Ht2.
  destruct (run_times_guarded _ _ _ _ _ H Hs) as [Hchr Hg].
  destruct (chronological_adjacent _ _ Hchr) as [_ Hadj].
  destruct (Hadj i e1 e2 H1 H2) as [Hlt|[Hn|Hz]].
  - rewrite Ht1, Ht2 in Hlt. simpl in Hlt. now apply Z.ltb_ge in Hlt.
  - congruence.
  - assert (t1 = 0) as -> by congruence.
    specialize (Hg (S i) e2 t2 H2 Ht2). lia.
Qed.

End Series.

(** ** More on the value under the tracker *)




(** X11.  With the tracker beyond the end of the time range by at least two
    sample intervals ([2/size] of the range), the position the scan starts
    from is beyond the size of the series, the position handed to the
    lookup is past the last event, and [getValue] returns [null]. *)
Theorem getValue_null_after_range (item : Model) (t b e : Z)
    (series : Pond.TimeSeries) :
  tracker item = TDate t ->
  _series item = Some series ->
  Pond.events series <> [] ->
  b < e ->
  (Pond.size series + 2) * (e - b) <= (t - b) * Pond.size series ->
  getValue item (Pond.mkTimeRange (Some b) (Some e)) = Ok Null.
Proof.
  intros Ht Hs Hne Hbe Hfar. unfold getValue. rewrite Ht, Hs.
  cbn [Pond.begin Pond.end_ date_number num_sub num_div].
  replace (e - b =? 0) with false by (symmetry; apply Z.eqb_neq; lia).
  cbn [num_mul_size floor].
  set (n := Pond.size series) in *.
  assert (0 < n) as Hn.
  { unfold n, Pond.size. destruct (Pond.events series); [congruence|].
    simpl. lia. }
  set (q := (inject_Z (t - b) / inject_Z (e - b) * inject_Z n)%Q).
  assert (n + 2 <= Qfloor q) as Hq.
  { rewrite <- (Qfloor_Z (n + 2)). apply Qfloor_resp_le.
    assert (q == inject_Z ((t - b) * n) / inject_Z (e - b))%Q as ->.
    { unfold q. rewrite inject_Z_mult. field.
      intros H0. unfold Qeq in H0. simpl in H0. lia. }
    apply Qle_shift_div_l.
    - change 0%Q with (inject_Z 0). rewrite <- Zlt_Qlt. lia.
    - rewrite <- inject_Z_mult, <- Zle_Qle. lia. }
  unfold Pond.bisect. fold n.
  replace (n =? 0) with false by (symmetry; apply Z.eqb_neq; lia).
  destruct (Qfloor q) as [|p|p] eqn:Eq; try lia.
  replace (Z.to_nat (n - Z.pos p)) with 0%nat by lia.
  cbn [Pond.bisect_loop rbind].
  assert (Pond.at_ series (Some (Int (Z.pos p - 1))) = None) as ->;
    [|reflexivity].
  unfold Pond.at_. fold n.
  replace (0 <? n) with true by (symmetry; apply Z.ltb_lt; lia).
  replace (Z.pos p - 1 <? 0) with false by (symmetry; apply Z.ltb_ge; lia).
  replace (Z.pos p - 1 <? n) with false by (symmetry; apply Z.ltb_ge; lia).
  now rewrite andb_false_r.
Qed.

(** ** More on snapshots *)

Lemma csMap_lookup_literal (s v : string) :
  csMap !! s = Some v -> (s, v) ∈ csMap_literal.
Proof.
  intros H. apply elem_of_map_to_list in H.
  remember (map_to_list csMap) as l eqn:El. vm_compute in El. subst l.
  repeat (apply elem_of_cons in H as [H|H];
          [injection H as -> ->; apply list_elem_of_In; simpl; auto 20|]).
  now apply elem_of_nil in H.
Qed.

Lemma csMap_value_listed (s v : string) :
  csMap !! s = Some v -> v ∈ csMap_values.
Proof.
  intros H. unfold csMap_values. apply list_elem_of_fmap.
  exists (s, v). split; [reflexivity|]. now apply elem_of_map_to_list.
Qed.

Lemma inherited_not_key (s : string) :
  s ∈ object_prototype_names -> csMap !! s = None.
Proof.
  intros H. unfold object_prototype_names in H.
  repeat (apply elem_of_cons in H as [->|H]; [vm_compute; reflexivity|]).
  now apply elem_of_nil in H.
Qed.

(** X12.  A snapshot is rejected exactly when its interpolation names a
    member every object inherits; every other string, key of the map or
    not, yields a channel. *)
Theorem create_rejects_inherited (guid : string) (snapshot : Snapshot)
    (s : string) :
  s_interpolation snapshot = PString s ->
  threw (create guid snapshot) <-> s ∈ object_prototype_names.
Proof.
  intros Hs. unfold create, attrs_of.
  cbn [s_interpolation preProcessSnapshot]. rewrite Hs.
  cbn [property_key]. unfold csMap_get.
  destruct (csMap !! s) as [v|] eqn:Ev.
  - cbn [interpolation_of].
    rewrite (bool_decide_eq_true_2 _ (csMap_value_listed _ _ Ev)). simpl.
    split; [tauto|]. intros Hin. apply inherited_not_key in Hin. congruence.
  - destruct (bool_decide (s ∈ object_prototype_names)) eqn:Ep; simpl.
    + apply bool_decide_eq_true_1 in Ep. tauto.
    + apply bool_decide_eq_false_1 in Ep. tauto.
Qed.

(** X13.  Preprocessing is not idempotent.  A second pass over a snapshot
    that was already preprocessed looks the canonical name up again, and no
    canonical name is a key of the map except ["curvebasis"]: whatever the
    interpolation was, after two passes it is [undefined], unless it was
    ["curvebasis"]. *)
Theorem preProcessSnapshot_twice (snapshot : Snapshot) (s : string) :
  s_interpolation snapshot = PString s ->
  s_interpolation (preProcessSnapshot (preProcessSnapshot snapshot))
  = if String.eqb s "curvebasis" then PString "curvebasis" else PUndefined.
Proof.
  intros Hs. cbn [s_interpolation preProcessSnapshot]. rewrite Hs.
  cbn [property_key]. unfold csMap_get at 2.
  destruct (csMap !! s) as [v|] eqn:Ev.
  - apply csMap_lookup_literal in Ev. unfold csMap_literal in Ev.
    repeat (apply elem_of_cons in Ev as [Ev|Ev];
            [injection Ev as -> ->; vm_compute; reflexivity|]).
    now apply elem_of_nil in Ev.
  - assert (String.eqb s "curvebasis" = false) as ->.
    { apply String.eqb_neq. intros ->. vm_compute in Ev. discriminate. }
    destruct (bool_decide (s ∈ object_prototype_names));
      vm_compute; reflexivity.
Qed.

(** ** The brush and the chart row *)

(** X14.  The fill of a brush: grey for an index without a region, red for
    a selected or highlighted region whatever its states, and the colour
    of the first state otherwise.  The callback raises exactly for a region
    that is neither selected nor highlighted and has no state. *)
Theorem brush_style_cases {State : Type} (getSelectedColor : State -> string)
    (regions : list (@Region State)) (i : nat) :
  ((length regions <= i)%nat ->
   brush_style getSelectedColor regions i = Ok "#cccccc") /\
  (forall r : Region,
     regions !! i = Some r -> selected r || highlighted r = true ->
     brush_style getSelectedColor regions i = Ok "#ff0000") /\
  (forall (r : Region) (st : State),
     regions !! i = Some r -> selected r || highlighted r = false ->
     states r !! 0%nat = Some st ->
     brush_style getSelectedColor regions i = Ok (getSelectedColor st)) /\
  (threw (brush_style getSelectedColor regions i) <->
   exists r : Region,
     regions !! i = Some r /\ selected r = false /\ highlighted r = false /\
     states r = []).
Proof.
  unfold brush_style. split; [|split; [|split]].
  - intros H. now rewrite (proj2 (lookup_ge_None regions i) H).
  - intros r -> ->. reflexivity.
  - intros r st -> -> ->. reflexivity.
  - destruct (regions !! i) as [r|] eqn:Er.
    + destruct (selected r) eqn:Es, (highlighted r) eqn:Eh; simpl;
        try (split; [tauto|intros (r' & [= <-] & H1 & H2 & _); congruence]).
      destruct (states r) as [|st sts] eqn:Est; simpl.
      * split; [|tauto]. intros _. exists r. auto.
      * split; [tauto|]. intros (r' & [= <-] & _ & _ & H). congruence.
    + simpl. split; [tauto|]. intros (r & H & _). discriminate.
Qed.

Lemma render_valueAxis {Parent : Type}
    (initialRange : Parent -> Pond.TimeRange) (item : Model)
    (parent : Parent) (rd : Rendered) :
  HtxTimeSeriesChannelView initialRange item parent = Ok (Some rd) ->
  (valueAxis rd = None <-> string_truthy (units (attrs item)) = false) /\
  (tracker item = TUndefined \/ tracker item = TNull \/
   exists v, getValue item (initialRange parent) = Ok v).
Proof.
  unfold HtxTimeSeriesChannelView.
  destruct (raw_falsy (_value item)); [discriminate|].
  destruct (getValue item (initialRange parent)) as [uval|] eqn:Eu; simpl;
    [|discriminate].
  destruct (_series item) as [s|]; [|discriminate].
  destruct (tracker item) as [| |t] eqn:Et; simpl;
    (destruct (range_end s) as [e|]; simpl; [|discriminate]);
    (destruct (range_begin s) as [b|]; simpl; [|discriminate]);
    intros [= <-]; simpl;
    (split; [destruct (string_truthy (units (attrs item)));
             split; congruence|eauto]).
Qed.

(** X15.  In every chart row the value under the tracker is shown in one
    place only: in the value axis when the channel has units, in the
    tracker info box when it has none.  The info box, when shown, has the
    single entry labelled ["value"] (never the units), which holds the
    placeholder as long as no tracker is set, and its height is 26. *)
Theorem ChartRow_tracker_info {Parent : Type}
    (initialRange : Parent -> Pond.TimeRange) (item : Model)
    (parent : Parent) (row : ChartRowProps) :
  ChartRow initialRange item parent = Ok (Some row) ->
  (row_trackerInfoValues row = None <-> row_valueAxis row <> None) /\
  (forall l, row_trackerInfoValues row = Some l ->
     exists v : info_value,
       l = [("value", v)] /\
       (tracker item = TUndefined \/ tracker item = TNull ->
        v = Placeholder)) /\
  row_trackerInfoHeight row = 26.
Proof.
  unfold ChartRow.
  destruct (HtxTimeSeriesChannelView initialRange item parent)
    as [[rd|]|] eqn:Ev; simpl; try discriminate.
  destruct (render_valueAxis _ _ _ _ Ev) as [Hax _].
  unfold trackerInfoValues.
  set (label := match units (attrs item) with
                | Some u => if string_truthy (Some u) then u else "value"
                | None => "value"
                end).
  assert (string_truthy (units (attrs item)) = false -> label = "value")
    as Hlabel.
  { unfold label. destruct (units (attrs item)) as [u|]; [|reflexivity].
    now intros ->. }
  destruct (match tracker item with
            | TDate _ =>
                rbind (getValue item (initialRange parent))
                  (fun v => Ok (InfoValue v))
            | _ => Ok Placeholder
            end) as [v|] eqn:Einfo; simpl; [|discriminate].
  intros [= <-]. simpl.
  destruct (string_truthy (units (attrs item))) eqn:Eu.
  - split; [|split; [discriminate|reflexivity]].
    destruct (valueAxis rd) as [x|] eqn:Ex.
    + destruct (units (attrs item)); [|discriminate]. split; congruence.
    + destruct Hax as [Hax _]. specialize (Hax eq_refl). discriminate.
  - split; [|split; [|reflexivity]].
    + rewrite (proj2 Hax eq_refl). split; [discriminate|congruence].
    + intros l [= <-]. exists v. rewrite (Hlabel eq_refl).
      split; [reflexivity|].
      intros [Ht|Ht]; rewrite Ht in Einfo; congruence.
Qed.

(** X16.  After any run of tracker changes the channel holds the last
    position (all else as before) and the container has been asked to
    update its view once per change. *)
Theorem trackers_changed_last {Parent : Type} (updateView : Parent -> Parent)
    (ts : list trackerpos) (c : Model) (parent : Parent) :
  trackers_changed updateView ts (c, parent)
  = (set_tracker (default (tracker c) (last ts)) c,
     Nat.iter (length ts) updateView parent).
Proof.
  revert c parent. induction ts as [|t ts IH]; intros c parent.
  - simpl. now destruct c.
  - change (trackers_changed updateView (t :: ts) (c, parent))
      with (trackers_changed updateView ts
              (set_tracker t c, updateView parent)).
    rewrite IH. f_equal.
    + destruct ts as [|t' ts]; [reflexivity|].
      change (last (t :: t' :: ts)) with (last (t' :: ts)).
      destruct (last (t' :: ts)) eqn:E; [reflexivity|].
      apply last_None in E. discriminate.
    + simpl. clear. induction (length ts) as [|n IHn]; simpl;
        [reflexivity|now rewrite IHn].
Qed.

(** ** Concrete runs for the further properties *)

Lemma updateValue_keeps_attributes_witness :
  exists c' : Model,
    run_on [10; 20]%Q [1; 2]%Q = (Ok tt, c') /\
    id c' = id fresh_channel /\ attrs c' = attrs fresh_channel /\
    tracker c' = tracker fresh_channel.
Proof.
  eexists. split; [vm_compute; reflexivity|].
  apply (updateValue_keeps_attributes c__value task_value
           (container_of (Value [Column (map Num [10; 20]%Q)]) 0 100)
           (Value [Column (map Num [1; 2]%Q)]) fresh_channel _ (Ok tt)).
  vm_compute. reflexivity.
Defined.

Lemma updateValue_idempotent_witness :
  exists c' : Model,
    run_on [10; 20]%Q [1; 2]%Q = (Ok tt, c') /\
    updateValue c__value task_value
      (container_of (Value [Column (map Num [10; 20]%Q)]) 0 100)
      (Value [Column (map Num [1; 2]%Q)]) c' = (Ok tt, c').
Proof.
  eexists. split; [vm_compute; reflexivity|].
  apply (updateValue_idempotent c__value task_value
           (container_of (Value [Column (map Num [10; 20]%Q)]) 0 100)
           (Value [Column (map Num [1; 2]%Q)]) fresh_channel).
  vm_compute. reflexivity.
Defined.

Lemma updateValue_failure_witness :
  exists c' : Model,
    run_on [5; 3]%Q [1; 2]%Q
    = (Throw (Error "TimeSeries was passed non-chronological events"), c') /\
    _value c' = Value [Column (map Num [1; 2]%Q)] /\
    _minTime c' = None /\ _maxTime c' = None /\
    ((_series c' = None /\
      _avg c' = Undefined /\ _max c' = Undefined /\ _min c' = Undefined) \/
     (Error "TimeSeries was passed non-chronological events" = TypeError /\
      _series c' = Some (Pond.mkTimeSeries []) /\
      _avg c' = NaN /\ _max c' = NaN /\ _min c' = NaN)).
Proof.
  eexists. split; [vm_compute; reflexivity|].
  apply (updateValue_failure c__value task_value
           (container_of (Value [Column (map Num [5; 3]%Q)]) 0 100)
           (Value [Column (map Num [1; 2]%Q)]) fresh_channel).
  vm_compute. reflexivity.
Defined.

Lemma updateValue_raises_on_negative_start_witness :
  (exists q : Q, map Num [-5; 10]%Q !! 0%nat = Some (Num q) /\ (q < 0)%Q) /\
  exists c' : Model,
    run_on [-5; 10]%Q [1; 2]%Q = (Throw TypeError, c') /\
    _series c' = Some (Pond.mkTimeSeries []) /\
    _avg c' = NaN /\ _max c' = NaN /\ _min c' = NaN.
Proof.
  assert (exists q : Q,
            map Num [-5; 10]%Q !! 0%nat = Some (Num q) /\ (q < 0)%Q) as Hq.
  { exists (-5)%Q. split; reflexivity. }
  split; [exact Hq|].
  exact (updateValue_raises_on_negative_start c__value task_value
           (container_of (Value [Column (map Num [-5; 10]%Q)]) 0 100)
           (Value [Column (map Num [1; 2]%Q)]) fresh_channel
           (map Num [-5; 10]%Q) [] eq_refl (or_intror Hq)).
Defined.

Lemma updated_channel_renders_witness :
  exists c' : Model,
    run_on [10; 20]%Q [1; 2]%Q = (Ok tt, c') /\
    exists r : Rendered,
      HtxTimeSeriesChannelView_summary c_initialRange c_format c'
        (container_of NoValue 0 100) =
        Ok (Some (r, [("Max", "#"); ("Avg", "#"); ("Min", "#")])) /\
      trackerPosition r = TNull /\
      Some (chart_minTime r) = _minTime c' /\
      Some (chart_maxTime r) = _maxTime c' /\
      labelAxis_min r = _min c' /\ labelAxis_max r = _max c'.
Proof.
  eexists. split; [vm_compute; reflexivity|].
  apply (updated_channel_renders c__value c_initialRange c_format task_value
           (container_of (Value [Column (map Num [10; 20]%Q)]) 0 100)
           (container_of NoValue 0 100)
           (Value [Column (map Num [1; 2]%Q)]) fresh_channel).
  - vm_compute. reflexivity.
  - left. reflexivity.
Defined.

Lemma failed_update_breaks_render_witness :
  _series fresh_channel = None /\
  raw_falsy (Value [Column (map Num [1; 2]%Q)]) = false /\
  exists c' : Model,
    run_on [] [1; 2]%Q = (Throw TypeError, c') /\
    threw (HtxTimeSeriesChannelView c_initialRange c'
             (container_of NoValue 0 100)).
Proof.
  split; [reflexivity|]. split; [reflexivity|].
  eexists. split; [vm_compute; reflexivity|].
  apply (failed_update_breaks_render c__value c_initialRange task_value
           (container_of (Value [Column []]) 0 100)
           (container_of NoValue 0 100)
           (Value [Column (map Num [1; 2]%Q)]) fresh_channel _ TypeError);
    [reflexivity | reflexivity | vm_compute; reflexivity].
Defined.

Lemma series_times_at_least_index_witness :
  exists (c' : Model) (s : Pond.TimeSeries) (e : Pond.TimeEvent),
    run_on [10; 20]%Q [1; 2]%Q = (Ok tt, c') /\
    _series c' = Some s /\
    Pond.events s !! 1%nat = Some e /\ Pond.timestamp e = Some 20 /\
    Z.of_nat 1 <= 20 /\ 0 <= 20.
Proof.
  eexists. eexists. eexists.
  split; [vm_compute; reflexivity|].
  split; [reflexivity|]. split; [reflexivity|]. split; [reflexivity|].
  eapply (series_times_at_least_index c__value task_value
           (container_of (Value [Column (map Num [10; 20]%Q)]) 0 100)
           (Value [Column (map Num [1; 2]%Q)]) fresh_channel _ _ 1%nat _ 20);
    [vm_compute; reflexivity | reflexivity | reflexivity | reflexivity].
Defined.

Lemma series_in_time_order_witness :
  exists (c' : Model) (s : Pond.TimeSeries) (e1 e2 : Pond.TimeEvent),
    run_on [10; 20]%Q [1; 2]%Q = (Ok tt, c') /\
    _series c' = Some s /\
    Pond.events s !! 0%nat = Some e1 /\ Pond.events s !! 1%nat = Some e2 /\
    Pond.timestamp e1 = Some 10 /\ Pond.timestamp e2 = Some 20 /\
    10 <= 20.
Proof.
  eexists. eexists. eexists. eexists.
  split; [vm_compute; reflexivity|].
  split; [reflexivity|]. split; [reflexivity|]. split; [reflexivity|].
  split; [reflexivity|]. split; [reflexivity|].
  eapply (series_in_time_order c__value task_value
           (container_of (Value [Column (map Num [10; 20]%Q)]) 0 100)
           (Value [Column (map Num [1; 2]%Q)]) fresh_channel _ _ 0%nat
           _ _ 10 20);
    [vm_compute; reflexivity | reflexivity | reflexivity | reflexivity
    | reflexivity | reflexivity].
Defined.


Lemma getValue_null_after_range_witness :
  exists series : Pond.TimeSeries,
    _series (tracked_channel 3000).1 = Some series /\
    (Pond.size series + 2) * (2000 - 1000)
    <= (3000 - 1000) * Pond.size series /\
    getValue (tracked_channel 3000).1
      (Pond.mkTimeRange (Some 1000) (Some 2000)) = Ok Null.
Proof.
  eexists. split; [vm_compute; reflexivity|].
  split; [vm_compute; discriminate|].
  eapply (getValue_null_after_range (tracked_channel 3000).1 3000 1000 2000);
    [vm_compute; reflexivity | vm_compute; reflexivity | discriminate
    | lia | vm_compute; discriminate].
Defined.

Lemma create_rejects_inherited_witness :
  s_interpolation (sensor_snapshot (PString "valueOf")) = PString "valueOf" /\
  (threw (create "channel-1" (sensor_snapshot (PString "valueOf"))) <->
   "valueOf" ∈ object_prototype_names).
Proof.
  split; [reflexivity|].
  exact (create_rejects_inherited "channel-1"
           (sensor_snapshot (PString "valueOf")) "valueOf" eq_refl).
Defined.

Lemma preProcessSnapshot_twice_witness :
  s_interpolation (sensor_snapshot (PString "curvelinear"))
  = PString "curvelinear" /\
  s_interpolation (preProcessSnapshot
                     (sensor_snapshot (PString "curvelinear")))
  = PString "curveLinear" /\
  s_interpolation (preProcessSnapshot
                     (preProcessSnapshot
                        (sensor_snapshot (PString "curvelinear"))))
  = PUndefined.
Proof.
  split; [reflexivity|]. split; [vm_compute; reflexivity|].
  exact (preProcessSnapshot_twice (sensor_snapshot (PString "curvelinear"))
           "curvelinear" eq_refl).
Defined.

Lemma ChartRow_tracker_info_witness :
  let w := tracked_channel 1500 in
  exists row : ChartRowProps,
    ChartRow c_initialRange w.1 w.2 = Ok (Some row) /\
    (row_trackerInfoValues row = None <-> row_valueAxis row <> None) /\
    (forall l, row_trackerInfoValues row = Some l ->
       exists v : info_value,
         l = [("value", v)] /\
         (tracker w.1 = TUndefined \/ tracker w.1 = TNull ->
          v = Placeholder)) /\
    row_trackerInfoHeight row = 26.
Proof.
  intros w. eexists. split; [vm_compute; reflexivity|].
  apply (ChartRow_tracker_info c_initialRange w.1 w.2).
  vm_compute. reflexivity.
Defined.

Section Statistics.

Context {Parent : Type}.
Variable parent__value : Parent -> raw.

Context {DataObj : Type}.
Variable runTemplate : option string -> DataObj -> raw.

Abbreviation run'' := (updateValue parent__value runTemplate).

Lemma pair_from_lookup (ts vals : list scalar) :
  forall (k i : nat) (p : point),
    pair_from k ts vals !! i = Some p ->
    exists t : scalar, ts !! i = Some t /\ p = (t, sample_at vals (k + i)).
Proof.
  induction ts as [|t ts IH]; intros k [|i] p; simpl; try discriminate.
  - intros [= <-]. exists t. now rewrite Nat.add_0_r.
  - intros H. destruct (IH (S k) i p H) as (u & Hu & ->).
    exists u. split; [exact Hu|]. f_equal. f_equal. lia.
Qed.

(** X17.  The series pairs by index: the event at position [i] carries the
    time value found at index [i] of the time column (as a date) and the
    sample found at index [i] of the value column, [undefined] past its
    end. *)
Theorem series_pairs_same_index (parent : Parent) (dataObj : DataObj)
    (c c' : Model) (times vals : list scalar) (cols cols' : list column)
    (s : Pond.TimeSeries) (i : nat) (e : Pond.TimeEvent) :
  parent__value parent = Value (Column times :: cols) ->
  runTemplate (value (attrs c)) dataObj = Value (Column vals :: cols') ->
  run'' parent dataObj c = (Ok tt, c') ->
  _series c' = Some s ->
  Pond.events s !! i = Some e ->
  exists q : Q,
    times !! i = Some (Num q) /\
    Pond.timestamp e = Pond.newDate q /\
    Pond.data e = sample_at vals i.
Proof.
  intros Hp Hv H Hser Hi.
  apply (updateValue_returns parent__value runTemplate) in H
    as (points & s' & r & Hl & Hs & Hr & ->).
  simpl in Hser. injection Hser as ->.
  apply newTimeSeries_inv in Hs as [Hev _].
  destruct (events_of_points_lookup _ _ Hev i e Hi) as (p & Hpt & Hts & Hd).
  destruct (points_loop_points _ _ _ Hl) as [_ Hguard].
  specialize (Hguard i p Hpt).
  rewrite Hp, Hv, points_loop_prefix in Hl. injection Hl as <-.
  apply pair_from_lookup in Hpt as (t & Ht & ->). simpl in *.
  apply lookup_take_Some in Ht as [Ht _].
  destruct t as [| | |q]; simpl in Hts; try discriminate.
  injection Hts as <-. exists q. auto.
Qed.

(** X18.  With a value template that has a dot, the series holds no number
    under the channel's column name: after every run of [updateValue] that
    returns, the three stored statistics are NaN, whatever the samples. *)
Theorem updateValue_dotted_column (parent : Parent) (dataObj : DataObj)
    (c c' : Model) :
  Pond.plain_column (value (attrs c)) = false ->
  run'' parent dataObj c = (Ok tt, c') ->
  _avg c' = NaN /\ _max c' = NaN /\ _min c' = NaN.
Proof.
  intros Hcol Hrun.
  apply (updateValue_returns parent__value runTemplate) in Hrun
    as (points & s & r & _ & _ & Hr & ->).
  pose proof (range_events _ _ Hr) as Hne.
  pose proof (get_dotted _ (Pond.events s) Hcol) as Hx.
  simpl. unfold Pond.avg, Pond.max, Pond.min.
  rewrite !(aggregate_nonempty _ _ _ Hne).
  now rewrite (avg_fn_empty _ Hx), (max_fn_empty _ Hx), (min_fn_empty _ Hx).
Qed.

End Statistics.

Lemma series_pairs_same_index_witness :
  exists (c' : Model) (s : Pond.TimeSeries) (e : Pond.TimeEvent),
    run_on [10; 20]%Q [1; 2]%Q = (Ok tt, c') /\
    _series c' = Some s /\
    Pond.events s !! 1%nat = Some e /\
    exists q : Q,
      map Num [10; 20]%Q !! 1%nat = Some (Num q) /\
      Pond.timestamp e = Pond.newDate q /\
      Pond.data e = sample_at (map Num [1; 2]%Q) 1.
Proof.
  eexists. eexists. eexists.
  split; [vm_compute; reflexivity|].
  split; [reflexivity|]. split; [reflexivity|].
  eapply (series_pairs_same_index c__value task_value
            (container_of (Value [Column (map Num [10; 20]%Q)]) 0 100)
            (Value [Column (map Num [1; 2]%Q)]) fresh_channel _
            (map Num [10; 20]%Q) (map Num [1; 2]%Q) [] []);
    [reflexivity | reflexivity | vm_compute; reflexivity | reflexivity
    | reflexivity].
Defined.

Lemma updateValue_dotted_column_witness :
  exists c' : Model,
    updateValue c__value task_value
      (container_of (Value [Column (map Num [10; 20]%Q)]) 0 100)
      (Value [Column (map Num [1; 2]%Q)]) dotted_channel = (Ok tt, c') /\
    Pond.plain_column (value (attrs dotted_channel)) = false /\
    _avg c' = NaN /\ _max c' = NaN /\ _min c' = NaN.
Proof.
  eexists. split; [vm_compute; reflexivity|]. split; [reflexivity|].
  apply (updateValue_dotted_column c__value task_value
           (container_of (Value [Column (map Num [10; 20]%Q)]) 0 100)
           (Value [Column (map Num [1; 2]%Q)]) dotted_channel).
  - reflexivity.
  - vm_compute. reflexivity.
Defined.
